(** * Travel Guide Planner ([guide_travel.py]): a shallow embedding

    The development follows the layout of the Python script:
    - [PyStr]: the [str] methods the script calls ([splitlines], [strip],
      [startswith], [join], slicing) and [textwrap.dedent];
    - [Renderer]: [markdown_to_flowables] and the story of [write_pdf];
    - [Prompt]: [SYSTEM_PROMPT] and [build_prompt];
    - [Session]: [st.session_state], [init_state] and [reset_all];
    - [Budget]: [estimate_budget] over Python numbers (binary64 floats);
    - [App]: one run of the script (submission handler and output section).

    A Python [str] is a sequence of Unicode code points; it is modelled as a
    list of code points ([N]). *)

From Stdlib Require Import ZArith NArith List Bool Ascii String Lia.
From Stdlib Require Import Reals Lra Psatz.
From Stdlib Require Import DecimalString.
From Stdlib Require Import Floats.SpecFloat.
#[local] Set Warnings "-register-all".
From stdpp Require Import gmap strings.
Import ListNotations.

#[local] Open Scope Z_scope.

(* ===================================================================== *)
(** * Python strings *)
(* ===================================================================== *)

Module PyStr.

#[local] Open Scope N_scope.

Definition char := N.
Definition pystr := list char.

(** A literal of the source (ASCII only) as a Python [str]. *)
Definition py (s : string) : pystr :=
  map N_of_ascii (list_ascii_of_string s).

Definition NL : char := 10.
Definition CR : char := 13.
Definition SP : char := 32.
Definition TAB : char := 9.

Definition nl : pystr := [NL].

(** Truth value of a [str]: empty is false. *)
Definition nonempty (s : pystr) : bool :=
  match s with [] => false | _ => true end.

(** [a or b] for strings. *)
Definition str_or (a b : pystr) : pystr := if nonempty a then a else b.

(** The line boundaries of [str.splitlines]: LF, VT, FF, CR, FS, GS, RS,
    NEL, LINE SEPARATOR, PARAGRAPH SEPARATOR. *)
Definition islinebreak (c : char) : bool :=
  (c =? 10) || (c =? 11) || (c =? 12) || (c =? 13) ||
  (c =? 28) || (c =? 29) || (c =? 30) || (c =? 133) ||
  (c =? 8232) || (c =? 8233).

(** The characters [str.strip()] removes ([str.isspace]). *)
Definition isspace (c : char) : bool :=
  ((9 <=? c) && (c <=? 13)) || ((28 <=? c) && (c <=? 32)) ||
  (c =? 133) || (c =? 160) || (c =? 5760) ||
  ((8192 <=? c) && (c <=? 8202)) || (c =? 8232) || (c =? 8233) ||
  (c =? 8239) || (c =? 8287) || (c =? 12288).

(** [s.splitlines()]: scan to the next line boundary, emit the line without
    it, read CR LF as one boundary; a final boundary opens no empty line.
    [cur] holds the characters of the current line, last one first. *)
Fixpoint splitlines_from (cur : pystr) (s : pystr) : list pystr :=
  match s with
  | [] => match cur with [] => [] | _ => [rev cur] end
  | c :: rest =>
      if islinebreak c then
        rev cur ::
        (if c =? CR then
           match rest with
           | c' :: rest' =>
               if c' =? NL then splitlines_from [] rest'
               else splitlines_from [] rest
           | [] => splitlines_from [] rest
           end
         else splitlines_from [] rest)
      else splitlines_from (c :: cur) rest
  end.

Definition splitlines (s : pystr) : list pystr := splitlines_from [] s.

(** [s.split(sep)] for a one-character separator. *)
Fixpoint split_on (sep : char) (s : pystr) : list pystr :=
  match s with
  | [] => [[]]
  | c :: rest =>
      if c =? sep then [] :: split_on sep rest
      else match split_on sep rest with
           | l :: ls => (c :: l) :: ls
           | [] => [[c]]
           end
  end.

(** [sep.join(parts)]. *)
Fixpoint join (sep : pystr) (parts : list pystr) : pystr :=
  match parts with
  | [] => []
  | [p] => p
  | p :: ps => p ++ sep ++ join sep ps
  end.

(** [s.startswith(prefix)]. *)
Fixpoint startswith (s prefix : pystr) {struct prefix} : bool :=
  match prefix with
  | [] => true
  | p :: ps =>
      match s with
      | [] => false
      | c :: cs => (c =? p) && startswith cs ps
      end
  end.

(** [s[n:]]. *)
Definition slice_from (n : nat) (s : pystr) : pystr := skipn n s.

Fixpoint lstrip (s : pystr) : pystr :=
  match s with
  | c :: rest => if isspace c then lstrip rest else s
  | [] => []
  end.

Definition rstrip (s : pystr) : pystr := rev (lstrip (rev s)).

(** [s.strip()]. *)
Definition strip (s : pystr) : pystr := rstrip (lstrip s).

(** [needle in hay]. *)
Fixpoint contains (hay needle : pystr) : bool :=
  startswith hay needle ||
  match hay with
  | [] => false
  | _ :: rest => contains rest needle
  end.

(** ** [textwrap.dedent]

    The regular-expression implementation of CPython's [textwrap]:
    lines made only of blanks and tabs are emptied, the margin is the
    longest run of blanks and tabs common to the lines that have other
    content, and the margin is removed from every line that starts with
    it.  Lines are delimited by LF only. *)

Definition is_blank_or_tab (c : char) : bool := (c =? SP) || (c =? TAB).

(** [_whitespace_only_re.sub('', text)], on one line. *)
Definition blank_line (l : pystr) : pystr :=
  if forallb is_blank_or_tab l then [] else l.

Fixpoint take_indent (l : pystr) : pystr :=
  match l with
  | c :: rest => if is_blank_or_tab c then c :: take_indent rest else []
  | [] => []
  end.

Fixpoint drop_indent (l : pystr) : pystr :=
  match l with
  | c :: rest => if is_blank_or_tab c then drop_indent rest else l
  | [] => []
  end.

(** [_leading_whitespace_re.findall(text)]: the indent of every line that
    has a character other than blank and tab. *)
Definition indents (lines : list pystr) : list pystr :=
  map take_indent (List.filter (fun l => nonempty (drop_indent l)) lines).

Fixpoint common_prefix (a b : pystr) : pystr :=
  match a, b with
  | x :: a', y :: b' => if x =? y then x :: common_prefix a' b' else []
  | _, _ => []
  end.

(** One round of the margin loop. *)
Definition margin_step (margin : option pystr) (indent : pystr)
  : option pystr :=
  match margin with
  | None => Some indent
  | Some m =>
      if startswith indent m then Some m
      else if startswith m indent then Some indent
      else Some (common_prefix m indent)
  end.

(** [re.sub(r'(?m)^' + margin, '', text)], on one line. *)
Definition remove_margin (margin l : pystr) : pystr :=
  if startswith l margin then skipn (length margin) l else l.

Definition dedent (text : pystr) : pystr :=
  let lines := map blank_line (split_on NL text) in
  match fold_left margin_step (indents lines) None with
  | Some (c :: m) => join nl (map (remove_margin (c :: m)) lines)
  | _ => join nl lines
  end.

End PyStr.

(* ===================================================================== *)
(** * Document renderer (ReportLab flowables) *)
(* ===================================================================== *)

Module Renderer.
Import PyStr.

(** ReportLab paragraph styles: an entry of [getSampleStyleSheet()] or a
    [ParagraphStyle] derived from one. *)
Inductive style :=
  | SampleStyle (name : string)
  | ParagraphStyle (name : string) (parent : style)
      (spaceBefore spaceAfter : Z).

Inductive flowable :=
  | Paragraph (text : pystr) (sty : style)
  | Spacer (width height : Z)
  | ListItem (content : flowable)
  | ListFlowable (items : list flowable) (bulletType : string).

Definition body : style := SampleStyle "BodyText".
Definition h2 : style := ParagraphStyle "H2" (SampleStyle "Heading2") 12 6.

(** The block appended for one line (the [if]/[elif]/[else] of the loop). *)
Definition line_block (line : pystr) : flowable :=
  if startswith line (py "## ") then
    Paragraph (slice_from 3 line) h2
  else if startswith line (py "- ") then
    ListFlowable [ListItem (Paragraph (slice_from 2 line) body)] "bullet"
  else
    Paragraph (str_or line (py " ")) body.

(** One round of the loop: two [flow.append] calls. *)
Definition append_line (flow : list flowable) (line : pystr) : list flowable :=
  (flow ++ [line_block line]) ++ [Spacer 1 4].

Definition markdown_to_flowables (md_text : pystr) : list flowable :=
  fold_left append_line (splitlines md_text) [].

(** The story [write_pdf] hands to [doc.build]; [stamp] is the formatted
    wall-clock time. *)
Definition pdf_story (stamp : pystr) (markdown_text : pystr) : list flowable :=
  ([Paragraph (py "AI Travel Guide Plan") (SampleStyle "Title");
    Spacer 1 10;
    Paragraph (py "Generated: " ++ stamp) (SampleStyle "Normal");
    Spacer 1 12])
  ++ markdown_to_flowables markdown_text.

End Renderer.

(* ===================================================================== *)
(** * Prompts *)
(* ===================================================================== *)

Module Prompt.
Import PyStr.

Definition SYSTEM_PROMPT : pystr := dedent (py "
You are a professional travel planner.
Create a realistic, day-by-day itinerary.
Adapt activities based on ages (kids, adults, seniors).
Respect guardrails strictly.

Format:

## City Name
### Day 1
- Morning:
- Afternoon:
- Evening:
").

(** [str(n)] for an [int]. *)
Definition str_of_int (n : Z) : pystr :=
  py (DecimalString.NilZero.string_of_int (Z.to_int n)).

(** The f-string of [build_prompt], before [dedent]. *)
Definition prompt_template (cities : list pystr) (days : Z)
    (interests : list pystr) (guardrails : pystr) (num_people : Z)
    (ages : pystr) : pystr :=
  py "
Cities: " ++ join (py ", ") cities ++ py "
Days per city: " ++ str_of_int days ++ py "

Travel Group:
- Number of people: " ++ str_of_int num_people ++ py "
- Ages: " ++ str_or ages (py "Not specified") ++ py "

Interests: " ++ str_or (join (py ", ") interests) (py "General sightseeing") ++ py "
Guardrails: " ++ str_or guardrails (py "None") ++ py "

Guidelines:
- Include kid-friendly or senior-friendly activities if applicable
- Avoid physically demanding activities when younger kids or seniors are present
- Balance rest and exploration

Generate a practical itinerary.
".

Definition build_prompt (cities : list pystr) (days : Z)
    (interests : list pystr) (guardrails : pystr) (num_people : Z)
    (ages : pystr) : pystr :=
  dedent (prompt_template cities days interests guardrails num_people ages).

End Prompt.

(* ===================================================================== *)
(** * Session state *)
(* ===================================================================== *)

Module Session.
Import PyStr.

(** The values the script keeps in [st.session_state]. *)
Inductive pyval :=
  | VNone
  | VInt (n : Z)
  | VStr (s : pystr)
  | VList (items : list pystr).

(** [st.session_state]: a mutable mapping from keys to values. *)
Abbreviation session_state := (gmap string pyval).

(** [d.setdefault(k, v)]: stores [v] only when [k] is absent. *)
Definition setdefault (k : string) (v : pyval) (st : session_state)
  : session_state :=
  match st !! k with
  | Some _ => st
  | None => <[k := v]> st
  end.

(** [d.clear()]. *)
Definition clear (st : session_state) : session_state := ∅.

Definition init_state (st : session_state) : session_state :=
  let st := setdefault "cities" (VStr []) st in
  let st := setdefault "days" (VInt 3) st in
  let st := setdefault "interests" (VList []) st in
  let st := setdefault "guardrails" (VStr []) st in
  let st := setdefault "daily_budget" (VInt 300) st in
  let st := setdefault "num_people" (VInt 1) st in
  let st := setdefault "ages" (VStr []) st in
  let st := setdefault "plan_md" (VStr []) st in
  st.

Definition reset_all (st : session_state) : session_state :=
  let st := clear st in
  init_state st.

(** Truth value of a stored value ([if v:]). *)
Definition truthy (v : pyval) : bool :=
  match v with
  | VNone => false
  | VInt n => negb (n =? 0)
  | VStr s => nonempty s
  | VList l => match l with [] => false | _ => true end
  end.

End Session.

(* ===================================================================== *)
(** * Python numbers and the budget estimator *)
(* ===================================================================== *)

(** Exceptions the modelled code can raise; the last three are those of the
    service client for a network failure, a rejected credential and an
    exhausted quota or rate limit. *)
Inductive exn :=
  | OverflowError
  | KeyError (key : string)
  | TypeError
  | IndexError
  | APIConnectionError
  | AuthenticationError
  | RateLimitError.

(** A Python [float] is an IEEE 754 binary64 number; the operations are
    those of the Standard Library's specification of binary64, rounding to
    nearest, ties to even. *)
Module Float64.

Definition prec : Z := 53.
Definition emax : Z := 1024.

Abbreviation float := spec_float.

Definition fadd : float -> float -> float := SFadd prec emax.
Definition fsub : float -> float -> float := SFsub prec emax.
Definition fmul : float -> float -> float := SFmul prec emax.
Definition fdiv : float -> float -> float := SFdiv prec emax.
Definition fabs : float -> float := SFabs.

(** [a >= b] on floats (false when either is a NaN). *)
Definition fge (a b : float) : bool := SFleb b a.

(** The integer [n] rounded to the nearest float; an infinity when [n] is
    beyond the range. *)
Definition round_int (n : Z) : float := binary_normalize prec emax n 0 false.

(** A decimal literal [num / 10^k] of the source, correctly rounded: both
    [num] and [10^k] are floats, and the division rounds once. *)
Definition literal (num : Z) (k : Z) : float :=
  fdiv (round_int num) (round_int (10 ^ k)).

Definition is_finite (f : float) : bool :=
  match f with
  | S754_zero _ | S754_finite _ _ _ => true
  | _ => false
  end.

Definition is_zero (f : float) : bool :=
  match f with
  | S754_zero _ => true
  | _ => false
  end.

End Float64.

Module Budget.
Import PyStr Float64.

(** Results of code that can raise. *)
Definition result (A : Type) : Type := exn + A.

Definition ret {A} (a : A) : result A := inr a.
Definition raise {A} (e : exn) : result A := inl e.
Definition bind {A B} (r : result A) (k : A -> result B) : result B :=
  match r with
  | inl e => inl e
  | inr a => k a
  end.

#[local] Notation "'let*' x := r 'in' k" := (bind r (fun x => k))
  (at level 10, x name, r at level 100, k at level 200).

(** The numbers the estimator receives: [int] (unbounded) or [float]. *)
Inductive pynum :=
  | PyInt (n : Z)
  | PyFloat (f : float).

(** [float(n)] for an [int]: raises [OverflowError] beyond the range. *)
Definition int_to_float (n : Z) : result float :=
  match round_int n with
  | S754_infinity _ => raise OverflowError
  | f => ret f
  end.

Definition to_float (x : pynum) : result float :=
  match x with
  | PyInt n => int_to_float n
  | PyFloat f => ret f
  end.

(** [x * y]: exact on two ints, otherwise both operands as floats. *)
Definition py_mul (x y : pynum) : result pynum :=
  match x, y with
  | PyInt a, PyInt b => ret (PyInt (a * b))
  | _, _ =>
      let* a := to_float x in
      let* b := to_float y in
      ret (PyFloat (fmul a b))
  end.

(** [x + y]. *)
Definition py_add (x y : pynum) : result pynum :=
  match x, y with
  | PyInt a, PyInt b => ret (PyInt (a + b))
  | _, _ =>
      let* a := to_float x in
      let* b := to_float y in
      ret (PyFloat (fadd a b))
  end.

(** The two ways CPython's built-in [sum] adds floats: plain left-to-right
    addition (the documented meaning, and the code before 3.12), and
    Neumaier's compensated summation (3.12 and later). *)
Inductive sum_algorithm := LeftToRight | Compensated.

(** One round of the compensated loop on the pair [(f_result, c)]. *)
Definition neumaier_step (acc : float * float) (x : float) : float * float :=
  let '(f_result, c) := acc in
  let t := fadd f_result x in
  let c :=
    if fge (fabs f_result) (fabs x)
    then fadd c (fadd (fsub f_result t) x)
    else fadd c (fadd (fsub x t) f_result) in
  (t, c).

(** The end of the compensated loop: [if (c && isfinite(c)) f_result += c]. *)
Definition neumaier_finish (acc : float * float) : float :=
  let '(f_result, c) := acc in
  if negb (is_zero c) && is_finite c then fadd f_result c else f_result.

(** [sum(values)] with the default start [0], for a sequence of floats: the
    first item is added to the int [0] with [+]; from there on the running
    total is a float. *)
Definition py_sum (alg : sum_algorithm) (values : list float) : pynum :=
  match values with
  | [] => PyInt 0
  | x :: rest =>
      let first := fadd (round_int 0) x in
      match alg with
      | LeftToRight => PyFloat (fold_left fadd rest first)
      | Compensated =>
          PyFloat (neumaier_finish
                     (fold_left neumaier_step rest (first, S754_zero false)))
      end
  end.

(** The float literals of [estimate_budget]. *)
Definition w_accommodation : float := literal 4 1.    (* 0.4 *)
Definition w_food : float := literal 25 2.            (* 0.25 *)
Definition w_transport : float := literal 15 2.       (* 0.15 *)
Definition w_activities : float := literal 2 1.       (* 0.2 *)

(** [total_daily * w * days] for a float literal [w]: both products are
    float products, an int operand being converted first. *)
Definition amount (total_daily : pynum) (w : float) (days : pynum)
  : result float :=
  let* t := to_float total_daily in
  let x := fmul t w in
  let* d := to_float days in
  ret (fmul x d).

(** The dict [breakdown], in insertion order. *)
Abbreviation breakdown := (list (string * float)).

Definition estimate_budget (alg : sum_algorithm)
    (days daily_budget num_people : pynum) : result (breakdown * pynum) :=
  let* total_daily := py_mul daily_budget num_people in
  let* accommodation := amount total_daily w_accommodation days in
  let* food := amount total_daily w_food days in
  let* transport := amount total_daily w_transport days in
  let* activities := amount total_daily w_activities days in
  let breakdown :=
    [("Accommodation"%string, accommodation);
     ("Food"%string, food);
     ("Transport"%string, transport);
     ("Activities"%string, activities)] in
  ret (breakdown, py_sum alg (map snd breakdown)).

End Budget.

(* ===================================================================== *)
(** * One run of the script *)
(* ===================================================================== *)

Module App.
Import PyStr Session Float64 Budget Renderer Prompt.

(** What the external chat-completion call does: it raises, or it returns
    a response whose [choices] each carry a [message.content] (a string, or
    [None]). *)
Inductive reply :=
  | Raises (e : exn)
  | Responds (choices : list (option pystr)).

(** The effects of a run, in order.  Calls of the components are recorded
    where the script makes them. *)
Inductive event :=
  | Warning (msg : pystr)                        (* st.warning *)
  | Spinner (msg : pystr)                        (* st.spinner *)
  | CallBuildPrompt (cities : list pystr)
  | CallService (model : string) (system user : pystr) (max_tokens : Z)
  | Success (msg : pystr)                        (* st.success *)
  | Subheader (msg : pystr)
  | Markdown (text : pystr)                      (* st.markdown *)
  | Divider
  | CallEstimateBudget (days daily_budget num_people : Z)
  | WriteAmount (label : string) (v : float)     (* st.write(f"{k}: ${v:,.2f}") *)
  | WriteTotal (v : pynum)
  | DownloadButton (story : list flowable)
  | Error (msg : pystr)                          (* st.error *)
  | ResetButton.

Section Run.

(** The external service, as a function of the messages it is sent. *)
Variable service : pystr -> pystr -> reply.
(** [doc.build]: whether building the document raises. *)
Variable build_fails : list flowable -> bool.
(** The formatted wall-clock time at render. *)
Variable stamp : pystr.
(** The summation algorithm of the Python in use. *)
Variable alg : sum_algorithm.

(** A computation over the session state that logs events and can raise;
    a raise keeps the state and the events reached so far. *)
Definition M (A : Type) : Type :=
  session_state -> list event -> result A * session_state * list event.

Definition mret {A} (a : A) : M A := fun st tr => (inr a, st, tr).
Definition mraise {A} (e : exn) : M A := fun st tr => (inl e, st, tr).
Definition mbind {A B} (m : M A) (k : A -> M B) : M B :=
  fun st tr =>
    match m st tr with
    | (inl e, st', tr') => (inl e, st', tr')
    | (inr a, st', tr') => k a st' tr'
    end.
Definition emit (e : event) : M unit := fun st tr => (inr tt, st, tr ++ [e]).
Definition lift {A} (r : result A) : M A := fun st tr => (r, st, tr).

#[local] Notation "'do' x <- m ; k" := (mbind m (fun x => k))
  (at level 10, x name, m at level 100, k at level 200).
#[local] Notation "'seq' m ; k" := (mbind m (fun _ => k))
  (at level 10, m at level 100, k at level 200).

(** [st.session_state[k]]. *)
Definition get (k : string) : M pyval :=
  fun st tr =>
    match st !! k with
    | Some v => (inr v, st, tr)
    | None => (inl (KeyError k), st, tr)
    end.

(** [st.session_state[k] = v]. *)
Definition set (k : string) (v : pyval) : M unit :=
  fun st tr => (inr tt, <[k := v]> st, tr).

(** Reads of a field with the type its widget gives it. *)
Definition get_str (k : string) : M pystr :=
  do v <- get k;
  match v with VStr s => mret s | _ => mraise TypeError end.

Definition get_int (k : string) : M Z :=
  do v <- get k;
  match v with VInt n => mret n | _ => mraise TypeError end.

Definition get_list (k : string) : M (list pystr) :=
  do v <- get k;
  match v with VList l => mret l | _ => mraise TypeError end.

(** [[c.strip() for c in text.splitlines() if c.strip()]]. *)
Definition city_list (text : pystr) : list pystr :=
  map strip (List.filter (fun c => nonempty (strip c)) (splitlines text)).

(** [[c for c in text.splitlines() if c.strip()]]. *)
Definition city_lines (text : pystr) : list pystr :=
  List.filter (fun c => nonempty (strip c)) (splitlines text).

Definition generate_itinerary (prompt : pystr) : M pyval :=
  seq emit (CallService "gpt-4.1" SYSTEM_PROMPT prompt 1800);
  match service SYSTEM_PROMPT prompt with
  | Raises e => mraise e
  | Responds choices =>
      match choices with
      | [] => mraise IndexError
      | Some content :: _ => mret (VStr content)
      | None :: _ => mret VNone
      end
  end.

(** The [if submitted:] block. *)
Definition main_action (submitted : bool) : M unit :=
  if submitted then
    do text <- get_str "cities";
    let cities := city_list text in
    match cities with
    | [] => emit (Warning (py "Please enter at least one city."))
    | _ =>
        seq emit (Spinner (py "Generating your personalized travel itinerary..."));
        do days <- get_int "days";
        do interests <- get_list "interests";
        do guardrails <- get_str "guardrails";
        do num_people <- get_int "num_people";
        do ages <- get_str "ages";
        seq emit (CallBuildPrompt cities);
        let prompt :=
          build_prompt cities days interests guardrails num_people ages in
        do plan <- generate_itinerary prompt;
        set "plan_md" plan
    end
  else mret tt.

Fixpoint write_breakdown (b : breakdown) : M unit :=
  match b with
  | [] => mret tt
  | (k, v) :: rest => seq emit (WriteAmount k v); write_breakdown rest
  end.

(** The [try]/[except Exception] around the PDF download. *)
Definition pdf_download (plan : pyval) : M unit :=
  match plan with
  | VStr text =>
      let story := pdf_story stamp text in
      if build_fails story
      then emit (Error (py "PDF generation failed"))
      else emit (DownloadButton story)
  | _ => emit (Error (py "PDF generation failed"))
  end.

(** The [if st.session_state["plan_md"]:] block. *)
Definition output : M unit :=
  do plan <- get "plan_md";
  if truthy plan then
    seq emit (Success (py "Travel plan generated!"));
    seq emit (Subheader (py "AI Itinerary"));
    seq emit (Markdown match plan with VStr s => s | _ => [] end);
    seq emit Divider;
    seq emit (Subheader (py "Budget Estimate"));
    do days <- get_int "days";
    do text <- get_str "cities";
    let total_days := days * Z.of_nat (length (city_lines text)) in
    do daily_budget <- get_int "daily_budget";
    do num_people <- get_int "num_people";
    seq emit (CallEstimateBudget total_days daily_budget num_people);
    do r <- lift (estimate_budget alg (PyInt total_days) (PyInt daily_budget)
                    (PyInt num_people));
    let '(breakdown, total) := r in
    seq write_breakdown breakdown;
    seq emit (WriteTotal total);
    pdf_download plan
  else mret tt.

(** One run of the script, top to bottom. *)
Definition script (submitted : bool) : M unit :=
  seq (fun st tr => (inr tt, init_state st, tr));
  seq main_action submitted;
  seq output;
  seq emit Divider;
  emit ResetButton.

Definition run (submitted : bool) (st : session_state)
  : result unit * session_state * list event :=
  script submitted st [].

End Run.

End App.

(* ===================================================================== *)
(** * Vocabulary of the statements *)
(* ===================================================================== *)

Module Spec.
Import PyStr.

(** [s] holds no line boundary of [splitlines]: it is one line. *)
Definition one_line (s : pystr) : Prop :=
  forallb (fun c => negb (islinebreak c)) s = true.



(** No line of [text] (lines delimited by LF) is non-empty and made only of
    whitespace. *)
Definition no_whitespace_only_line (text : pystr) : bool :=
  forallb (fun l => negb (nonempty l && forallb isspace l)) (split_on NL text).

(** [text] with every line made only of blanks and tabs emptied. *)
Definition blank_text (text : pystr) : pystr :=
  join nl (map blank_line (split_on NL text)).

(** The documented defaults of the form: days 3, one traveller, a daily
    budget of 300, and empty cities, interests, guardrails, ages and
    itinerary text. *)
Definition documented_defaults : Session.session_state :=
  list_to_map
    [ ("cities"%string, Session.VStr []);
      ("days"%string, Session.VInt 3);
      ("interests"%string, Session.VList []);
      ("guardrails"%string, Session.VStr []);
      ("daily_budget"%string, Session.VInt 300);
      ("num_people"%string, Session.VInt 1);
      ("ages"%string, Session.VStr []);
      ("plan_md"%string, Session.VStr []) ].

(** The events of generating an itinerary: building the prompt and calling
    the external service. *)
Definition is_generation_event (e : App.event) : bool :=
  match e with
  | App.CallBuildPrompt _ | App.CallService _ _ _ _ => true
  | _ => false
  end.

Definition is_estimate_call (e : App.event) : bool :=
  match e with
  | App.CallEstimateBudget _ _ _ => true
  | _ => false
  end.


(** [s] is not empty and has no whitespace at either end. *)
Definition trimmed (s : pystr) : Prop :=
  s <> [] /\
  (forall c, hd_error s = Some c -> isspace c = false) /\
  (forall c, hd_error (rev s) = Some c -> isspace c = false).

(** The fixed end of every request text. *)
Definition guidelines : pystr := py "Guidelines:
- Include kid-friendly or senior-friendly activities if applicable
- Avoid physically demanding activities when younger kids or seniors are present
- Balance rest and exploration

Generate a practical itinerary.
".


(** The eight keys of the form. *)
Definition form_keys : list string :=
  ["cities"; "days"; "interests"; "guardrails"; "daily_budget";
   "num_people"; "ages"; "plan_md"]%string.

End Spec.

(** The real number a float stands for (zero for infinities and NaN), and
    the vocabulary of the accuracy statements. *)
Module FloatSpec.
Import Float64 Budget.
#[local] Open Scope R_scope.

Definition bpow (e : Z) : R := powerRZ 2 e.

Definition B2R (f : float) : R :=
  match f with
  | S754_finite s m e =>
      (if s then - IZR (Zpos m) else IZR (Zpos m)) * bpow e
  | _ => 0
  end.

(** A zero, or a finite float whose exponent is at least the least
    exponent of binary64. *)
Definition fin (f : float) : Prop :=
  match f with
  | S754_zero _ => True
  | S754_finite _ _ e => (-1074 <= e)%Z
  | _ => False
  end.

(** A finite float with a full 53-bit significand. *)
Definition normal (f : float) : Prop :=
  match f with
  | S754_finite _ m e =>
      (2 ^ 52 <= Zpos m < 2 ^ 53)%Z /\ (-1074 <= e)%Z
  | _ => False
  end.

(** The sign of a float as a factor. *)
Definition sgn (s : bool) : R := if s then -1 else 1.

(** The unit roundoff of binary64. *)
Definition u : R := bpow (-53).

(** The relative tolerance of the accuracy statements, [2^-48]. *)
Definition tolerance : R := bpow (-48).

(** [x] is [y] up to the relative error [tol]. *)
Definition close_to (tol x y : R) : Prop := Rabs (x - y) <= tol * Rabs y.

(** [x] is [X] up to [c] unit roundoffs, relative to [X]. *)
Definition within (c x X : R) : Prop :=
  X * (1 - c * u) <= x <= X * (1 + c * u).

(** A weight of the estimator: one of its four float literals. *)
Definition is_weight (w : float) : Prop :=
  w = w_accommodation \/ w = w_food \/ w = w_transport \/ w = w_activities.

End FloatSpec.

(* ===================================================================== *)
(** * Facts about the string operations *)
(* ===================================================================== *)

Section StringFacts.
Import PyStr Spec.
#[local] Open Scope N_scope.

Lemma splitlines_from_one_line (l cur s : pystr) :
  one_line l ->
  splitlines_from cur (l ++ s) = splitlines_from (rev l ++ cur) s.
Proof.
  revert cur. induction l as [|c l IH]; intros cur Hl; [reflexivity|].
  unfold one_line in Hl. simpl in Hl. apply andb_prop in Hl as [Hc Hl].
  simpl. apply negb_true_iff in Hc. rewrite Hc.
  rewrite IH by exact Hl. simpl. now rewrite <- app_assoc.
Qed.





(** Any boundary character ends the line before it. *)
Lemma splitlines_boundary (l rest : pystr) (c : char) :
  one_line l -> islinebreak c = true ->
  (c = CR -> hd_error rest <> Some NL) ->
  splitlines (l ++ c :: rest) = l :: splitlines rest.
Proof.
  intros Hl Hc Hcr. unfold splitlines.
  rewrite splitlines_from_one_line by exact Hl. simpl. rewrite Hc.
  rewrite app_nil_r, rev_involutive. f_equal.
  destruct (N.eqb_spec c CR) as [->|_]; [|reflexivity].
  destruct rest as [|c' rest']; [reflexivity|].
  destruct (N.eqb_spec c' NL) as [->|_]; [|reflexivity].
  exfalso. now apply Hcr.
Qed.

Lemma split_on_nonempty (sep : char) (s : pystr) : split_on sep s <> [].
Proof.
  destruct s as [|c s]; simpl; [discriminate|].
  destruct (c =? sep); [discriminate|].
  destruct (split_on sep s); discriminate.
Qed.

Lemma split_on_cons_other (sep c : char) (s : pystr) :
  (c =? sep) = false ->
  exists l ls, split_on sep s = l :: ls /\
               split_on sep (c :: s) = (c :: l) :: ls.
Proof.
  intros Hc. simpl. rewrite Hc.
  destruct (split_on sep s) as [|l ls] eqn:E.
  - now apply split_on_nonempty in E.
  - now exists l, ls.
Qed.


Lemma join_split_on (s : pystr) : join nl (split_on NL s) = s.
Proof.
  induction s as [|c s IH]; [reflexivity|].
  simpl. destruct (N.eqb_spec c NL) as [->|Hne].
  - destruct (split_on NL s) as [|l ls] eqn:E.
    + now apply split_on_nonempty in E.
    + simpl in *. now rewrite IH.
  - destruct (split_on NL s) as [|l ls] eqn:E.
    + now apply split_on_nonempty in E.
    + destruct ls; simpl in *; now rewrite <- IH.
Qed.

End StringFacts.

(* ===================================================================== *)
(** * The document renderer *)
(* ===================================================================== *)

Section RendererFacts.
Import PyStr Spec Renderer.
#[local] Open Scope N_scope.

Lemma one_line_app (a b : pystr) : one_line a -> one_line b -> one_line (a ++ b).
Proof.
  unfold one_line. intros Ha Hb. rewrite forallb_app, Ha, Hb. reflexivity.
Qed.



Lemma line_block_heading (h : pystr) :
  line_block (py "## " ++ h) = Paragraph h h2.
Proof. reflexivity. Qed.

Lemma line_block_bullet (b : pystr) :
  line_block (py "- " ++ b) =
  ListFlowable [ListItem (Paragraph b body)] "bullet".
Proof. reflexivity. Qed.








End RendererFacts.

(* ===================================================================== *)
(** * The prompt builder *)
(* ===================================================================== *)

Section PromptFacts.
Import PyStr Spec Prompt.
#[local] Open Scope N_scope.

Lemma startswith_app (needle post : pystr) :
  startswith (needle ++ post) needle = true.
Proof.
  induction needle as [|c n IH]; [reflexivity|].
  simpl. now rewrite N.eqb_refl, IH.
Qed.

Lemma contains_here (hay needle : pystr) :
  startswith hay needle = true -> contains hay needle = true.
Proof. intros H. destruct hay; simpl in *; now rewrite H. Qed.

Lemma contains_app (pre needle post : pystr) :
  contains (pre ++ needle ++ post) needle = true.
Proof.
  induction pre as [|c pre IH].
  - simpl. apply contains_here, startswith_app.
  - simpl. rewrite IH. apply orb_true_r.
Qed.

Lemma split_on_app_sep (a b : pystr) :
  split_on NL (a ++ NL :: b) = split_on NL a ++ split_on NL b.
Proof.
  induction a as [|c a IH]; [reflexivity|].
  simpl. destruct (c =? NL); [now rewrite IH|].
  rewrite IH. destruct (split_on NL a) as [|l ls] eqn:E.
  - now apply split_on_nonempty in E.
  - reflexivity.
Qed.

Lemma join_app (sep : pystr) (xs ys : list pystr) :
  xs <> [] -> ys <> [] ->
  join sep (xs ++ ys) = join sep xs ++ sep ++ join sep ys.
Proof.
  intros Hx Hy. induction xs as [|x xs IH]; [congruence|].
  destruct xs as [|x' xs].
  - simpl. destruct ys; [congruence|reflexivity].
  - change (join sep ((x :: x' :: xs) ++ ys))
      with (x ++ sep ++ join sep ((x' :: xs) ++ ys)).
    rewrite IH by discriminate.
    change (join sep (x :: x' :: xs)) with (x ++ sep ++ join sep (x' :: xs)).
    now rewrite <- !app_assoc.
Qed.

Lemma blank_text_app_sep (a b : pystr) :
  blank_text (a ++ NL :: b) = blank_text a ++ NL :: blank_text b.
Proof.
  unfold blank_text. rewrite split_on_app_sep, map_app, join_app.
  - reflexivity.
  - intros H. apply map_eq_nil in H. now apply split_on_nonempty in H.
  - intros H. apply map_eq_nil in H. now apply split_on_nonempty in H.
Qed.

Lemma blank_or_tab_isspace (c : char) :
  is_blank_or_tab c = true -> isspace c = true.
Proof.
  unfold is_blank_or_tab, SP, TAB. intros H. apply orb_prop in H.
  destruct H as [H|H]; apply N.eqb_eq in H; subst c; reflexivity.
Qed.

Lemma forallb_blank_isspace (l : pystr) :
  forallb is_blank_or_tab l = true -> forallb isspace l = true.
Proof.
  induction l as [|c l IH]; [reflexivity|]. simpl. intros H.
  apply andb_prop in H as [Hc Hl].
  now rewrite (blank_or_tab_isspace c Hc), IH.
Qed.

(** Without a whitespace-only line, emptying such lines changes nothing. *)
Lemma blank_text_clean (text : pystr) :
  no_whitespace_only_line text = true -> blank_text text = text.
Proof.
  unfold no_whitespace_only_line, blank_text. intros H.
  rewrite <- (join_split_on text) at 2. f_equal.
  induction (split_on NL text) as [|l ls IH]; [reflexivity|].
  simpl in H. apply andb_prop in H as [Hl Hls].
  simpl. rewrite IH by exact Hls. f_equal.
  unfold blank_line. destruct (forallb is_blank_or_tab l) eqn:E; [|reflexivity].
  apply forallb_blank_isspace in E. rewrite E, andb_true_r in Hl.
  now destruct l.
Qed.

Lemma fold_margin_step_empty (ins : list pystr) :
  fold_left margin_step ins (Some []) = Some [].
Proof. induction ins as [|i ins IH]; [reflexivity|]. simpl. exact IH. Qed.

(** A text whose first line is empty and whose second line starts at the
    left edge has no margin: [dedent] only empties blank lines. *)
Lemma dedent_no_margin (c : char) (s : pystr) :
  is_blank_or_tab c = false -> (c =? NL) = false ->
  dedent (NL :: c :: s) = blank_text (NL :: c :: s).
Proof.
  intros Hc Hnl. unfold dedent, blank_text.
  destruct (split_on_cons_other NL c s Hnl) as (l & ls & E1 & E2).
  change (split_on NL (NL :: c :: s)) with ([] :: split_on NL (c :: s)).
  rewrite E2.
  assert (Hb : blank_line (c :: l) = c :: l).
  { unfold blank_line. simpl. now rewrite Hc. }
  simpl map. rewrite Hb. change (blank_line []) with (@nil char).
  unfold indents. cbn [List.filter drop_indent nonempty]. rewrite Hc.
  cbn [nonempty map take_indent fold_left margin_step]. rewrite Hc.
  now rewrite fold_margin_step_empty.
Qed.

(** [build_prompt] returns its f-string with the lines made only of blanks
    and tabs emptied. *)
Lemma build_prompt_blank_text cities days interests guardrails num_people ages :
  build_prompt cities days interests guardrails num_people ages =
  blank_text (prompt_template cities days interests guardrails num_people ages).
Proof. unfold build_prompt, prompt_template. now apply dedent_no_margin. Qed.

(** A line that is not blank survives, with the text around it. *)
Lemma blank_text_line (a l b : pystr) :
  split_on NL l = [l] -> forallb is_blank_or_tab l = false ->
  blank_text (a ++ NL :: l ++ NL :: b) =
  blank_text a ++ NL :: l ++ NL :: blank_text b.
Proof.
  intros Hl Hb. rewrite !blank_text_app_sep. do 2 f_equal.
  unfold blank_text at 1. rewrite Hl. simpl. unfold blank_line. now rewrite Hb.
Qed.

Lemma startswith_inv (s needle : pystr) :
  startswith s needle = true -> exists post, s = needle ++ post.
Proof.
  revert s. induction needle as [|n needle IH]; intros s H.
  - now exists s.
  - destruct s as [|c s]; [discriminate|]. simpl in H.
    apply andb_prop in H as [H1 H2]. apply N.eqb_eq in H1 as ->.
    destruct (IH s H2) as [post ->]. now exists post.
Qed.

Lemma contains_inv (hay needle : pystr) :
  contains hay needle = true -> exists pre post, hay = pre ++ needle ++ post.
Proof.
  induction hay as [|c hay IH]; simpl; intros H.
  - rewrite orb_false_r in H. destruct (startswith_inv _ _ H) as [post E].
    now exists [], post.
  - apply orb_prop in H as [H|H].
    + destruct (startswith_inv _ _ H) as [post E]. now exists [], post.
    + destruct (IH H) as (pre & post & ->). now exists (c :: pre), post.
Qed.

Lemma contains_mid (pre l post needle : pystr) :
  contains l needle = true -> contains (pre ++ l ++ post) needle = true.
Proof.
  intros H. destruct (contains_inv _ _ H) as (p & q & ->).
  replace (pre ++ (p ++ needle ++ q) ++ post)
    with ((pre ++ p) ++ needle ++ (q ++ post))
    by (now rewrite <- !app_assoc).
  apply contains_app.
Qed.

(** A line that is not blank is found in the result of [blank_text]. *)
Lemma contains_line (a l b needle : pystr) :
  split_on NL l = [l] -> forallb is_blank_or_tab l = false ->
  contains l needle = true ->
  contains (blank_text (a ++ NL :: l ++ NL :: b)) needle = true.
Proof.
  intros Hl Hb Hs. rewrite blank_text_line by assumption.
  change (blank_text a ++ NL :: l ++ NL :: blank_text b)
    with (blank_text a ++ [NL] ++ l ++ NL :: blank_text b).
  rewrite app_assoc. now apply contains_mid.
Qed.

(** C5, as stated, fails in its last part: a guardrails text with a line
    made only of a blank comes back with that line emptied, so the request
    text does not hold the user's text verbatim. *)
Lemma C5_counterexample :
  let guardrails := py "No stairs" ++ nl ++ py " " ++ nl ++ py "kid-friendly" in
  let out := build_prompt [py "Rome"] 3 [] guardrails 2 [] in
  nonempty guardrails = true /\
  contains out guardrails = false /\
  contains out (py "No stairs" ++ nl ++ nl ++ py "kid-friendly") = true.
Proof. vm_compute. repeat split. Qed.

(** C5, amended. The request text holds "Not specified" when [ages] is
    empty, "General sightseeing" when [interests] is empty and "None" when
    [guardrails] is empty.  When the filled-in text has no line made only of
    whitespace, the request text is the filled-in text itself, so each
    non-empty field stands verbatim in the place of its fallback. *)
Theorem C5_prompt_fallbacks
    (cities : list pystr) (days : Z) (interests : list pystr)
    (guardrails : pystr) (num_people : Z) (ages : pystr) :
  let out := build_prompt cities days interests guardrails num_people ages in
  let filled :=
    prompt_template cities days interests guardrails num_people ages in
  (ages = [] -> contains out (py "Not specified") = true) /\
  (interests = [] -> contains out (py "General sightseeing") = true) /\
  (guardrails = [] -> contains out (py "None") = true) /\
  (no_whitespace_only_line filled = true ->
   out = filled /\
   (ages <> [] -> contains out (py "- Ages: " ++ ages ++ nl) = true) /\
   (join (py ", ") interests <> [] ->
    contains out (py "Interests: " ++ join (py ", ") interests ++ nl) = true) /\
   (guardrails <> [] ->
    contains out (py "Guardrails: " ++ guardrails ++ nl) = true)).
Proof.
  intros out filled. subst out filled. rewrite build_prompt_blank_text.
  set (c := join (py ", ") cities). set (d := str_of_int days).
  set (n := str_of_int num_people).
  repeat split.
  - intros ->.
    set (a := py "
Cities: " ++ c ++ py "
Days per city: " ++ d ++ py "

Travel Group:
- Number of people: " ++ n).
    set (b := py "
Interests: " ++ str_or (join (py ", ") interests) (py "General sightseeing") ++ py "
Guardrails: " ++ str_or guardrails (py "None") ++ py "

Guidelines:
- Include kid-friendly or senior-friendly activities if applicable
- Avoid physically demanding activities when younger kids or seniors are present
- Balance rest and exploration

Generate a practical itinerary.
").
    replace (prompt_template cities days interests guardrails num_people [])
      with (a ++ NL :: py "- Ages: Not specified" ++ NL :: b).
    + apply contains_line; reflexivity.
    + unfold prompt_template, a, b. fold c d n. rewrite <- !app_assoc.
      reflexivity.
  - intros ->.
    set (a := py "
Cities: " ++ c ++ py "
Days per city: " ++ d ++ py "

Travel Group:
- Number of people: " ++ n ++ py "
- Ages: " ++ str_or ages (py "Not specified") ++ py "
").
    set (b := py "
Guidelines:
- Include kid-friendly or senior-friendly activities if applicable
- Avoid physically demanding activities when younger kids or seniors are present
- Balance rest and exploration

Generate a practical itinerary.
").
    set (l := py "Guardrails: " ++ str_or guardrails (py "None")).
    replace (prompt_template cities days [] guardrails num_people ages)
      with (a ++ NL :: py "Interests: General sightseeing"
              ++ NL :: l ++ NL :: b).
    + apply contains_line; reflexivity.
    + unfold prompt_template, a, b, l. fold c d n. rewrite <- !app_assoc.
      reflexivity.
  - intros ->.
    set (a := py "
Cities: " ++ c ++ py "
Days per city: " ++ d ++ py "

Travel Group:
- Number of people: " ++ n ++ py "
- Ages: " ++ str_or ages (py "Not specified") ++ py "

Interests: " ++ str_or (join (py ", ") interests) (py "General sightseeing")).
    set (b := py "
Guidelines:
- Include kid-friendly or senior-friendly activities if applicable
- Avoid physically demanding activities when younger kids or seniors are present
- Balance rest and exploration

Generate a practical itinerary.
").
    replace (prompt_template cities days interests [] num_people ages)
      with (a ++ NL :: py "Guardrails: None" ++ NL :: b).
    + apply contains_line; reflexivity.
    + unfold prompt_template, a, b. fold c d n. rewrite <- !app_assoc.
      reflexivity.
  - now apply blank_text_clean.
  - intros Hne. rewrite blank_text_clean by assumption.
    set (a := py "
Cities: " ++ c ++ py "
Days per city: " ++ d ++ py "

Travel Group:
- Number of people: " ++ n ++ nl).
    set (b := py "
Interests: " ++ str_or (join (py ", ") interests) (py "General sightseeing") ++ py "
Guardrails: " ++ str_or guardrails (py "None") ++ py "

Guidelines:
- Include kid-friendly or senior-friendly activities if applicable
- Avoid physically demanding activities when younger kids or seniors are present
- Balance rest and exploration

Generate a practical itinerary.
").
    replace (prompt_template cities days interests guardrails num_people ages)
      with (a ++ (py "- Ages: " ++ ages ++ nl) ++ b).
    + apply contains_app.
    + unfold prompt_template, a, b. fold c d n.
      replace (str_or ages (py "Not specified")) with ages
        by (now destruct ages).
      rewrite <- !app_assoc. reflexivity.
  - intros Hne. rewrite blank_text_clean by assumption.
    set (i := join (py ", ") interests) in *.
    set (a := py "
Cities: " ++ c ++ py "
Days per city: " ++ d ++ py "

Travel Group:
- Number of people: " ++ n ++ py "
- Ages: " ++ str_or ages (py "Not specified") ++ py "

").
    set (b := py "Guardrails: " ++ str_or guardrails (py "None") ++ py "

Guidelines:
- Include kid-friendly or senior-friendly activities if applicable
- Avoid physically demanding activities when younger kids or seniors are present
- Balance rest and exploration

Generate a practical itinerary.
").
    replace (prompt_template cities days interests guardrails num_people ages)
      with (a ++ (py "Interests: " ++ i ++ nl) ++ b).
    + apply contains_app.
    + unfold prompt_template, a, b. fold c d n i.
      replace (str_or i (py "General sightseeing")) with i
        by (now destruct i).
      rewrite <- !app_assoc. reflexivity.
  - intros Hne. rewrite blank_text_clean by assumption.
    set (a := py "
Cities: " ++ c ++ py "
Days per city: " ++ d ++ py "

Travel Group:
- Number of people: " ++ n ++ py "
- Ages: " ++ str_or ages (py "Not specified") ++ py "

Interests: " ++ str_or (join (py ", ") interests) (py "General sightseeing")
       ++ nl).
    set (b := py "
Guidelines:
- Include kid-friendly or senior-friendly activities if applicable
- Avoid physically demanding activities when younger kids or seniors are present
- Balance rest and exploration

Generate a practical itinerary.
").
    replace (prompt_template cities days interests guardrails num_people ages)
      with (a ++ (py "Guardrails: " ++ guardrails ++ nl) ++ b).
    + apply contains_app.
    + unfold prompt_template, a, b. fold c d n.
      replace (str_or guardrails (py "None")) with guardrails
        by (now destruct guardrails).
      rewrite <- !app_assoc. reflexivity.
Qed.

(** The theorem at a request with every field filled in. *)
Lemma C5_witness :
  let ages := py "5, 12, 34, 60" in
  let interests := [py "Museums"; py "Nature"] in
  let guardrails := py "No walking tours, kid-friendly only" in
  let out := build_prompt [py "Rome"; py "Paris"] 3 interests guardrails 2 ages in
  out = prompt_template [py "Rome"; py "Paris"] 3 interests guardrails 2 ages /\
  contains out (py "- Ages: 5, 12, 34, 60" ++ nl) = true /\
  contains out (py "Interests: Museums, Nature" ++ nl) = true /\
  contains out (py "Guardrails: No walking tours, kid-friendly only" ++ nl) = true /\
  contains (build_prompt [py "Rome"] 3 [] [] 1 []) (py "Not specified") = true /\
  contains (build_prompt [py "Rome"] 3 [] [] 1 []) (py "General sightseeing") = true /\
  contains (build_prompt [py "Rome"] 3 [] [] 1 []) (py "None") = true.
Proof.
  intros ages interests guardrails out.
  destruct (C5_prompt_fallbacks [py "Rome"; py "Paris"] 3 interests guardrails 2 ages)
    as (_ & _ & _ & H).
  destruct (H eq_refl) as (E & Ha & Hi & Hg).
  destruct (C5_prompt_fallbacks [py "Rome"] 3 [] [] 1 [])
    as (F1 & F2 & F3 & _).
  split; [exact E|].
  split; [apply Ha; discriminate|].
  split; [apply Hi; discriminate|].
  split; [apply Hg; discriminate|].
  split; [apply F1; reflexivity|].
  split; [apply F2; reflexivity|apply F3; reflexivity].
Defined.

End PromptFacts.

(* ===================================================================== *)
(** * The session state *)
(* ===================================================================== *)

Section SessionFacts.
Import PyStr Spec Session.

Lemma setdefault_lookup (k k' : string) (v : pyval) (st : session_state) :
  setdefault k v st !! k' =
  if decide (k = k') then Some (default v (st !! k)) else st !! k'.
Proof.
  unfold setdefault. destruct (st !! k) as [w|] eqn:E.
  - case_decide; [now subst|reflexivity].
  - rewrite lookup_insert. reflexivity.
Qed.

(** [init_state] keeps what is stored and fills in what is missing. *)
Lemma init_state_keeps (k : string) (v : pyval) (st : session_state) :
  st !! k = Some v -> init_state st !! k = Some v.
Proof.
  intros H. unfold init_state. rewrite !setdefault_lookup.
  repeat (case_decide; [subst k; rewrite ?setdefault_lookup;
            repeat (case_decide; [discriminate|]); now rewrite H|]).
  exact H.
Qed.

(** C8. Whatever the session state was, after [reset_all] it is exactly
    the documented default state: days = 3, num_people = 1,
    daily_budget = 300, and empty cities, interests, guardrails, ages and
    itinerary text, with no other key left. *)
Theorem C8_reset_all_defaults (st : session_state) :
  reset_all st = documented_defaults /\
  reset_all st !! "days" = Some (VInt 3) /\
  reset_all st !! "num_people" = Some (VInt 1) /\
  reset_all st !! "daily_budget" = Some (VInt 300) /\
  reset_all st !! "cities" = Some (VStr []) /\
  reset_all st !! "interests" = Some (VList []) /\
  reset_all st !! "guardrails" = Some (VStr []) /\
  reset_all st !! "ages" = Some (VStr []) /\
  reset_all st !! "plan_md" = Some (VStr []) /\
  size (reset_all st) = 8%nat.
Proof.
  unfold reset_all, clear. repeat split; vm_compute; reflexivity.
Qed.

End SessionFacts.

(* ===================================================================== *)
(** * Runs of the script *)
(* ===================================================================== *)

Section AppFacts.
Import PyStr Spec Session Float64 Budget Renderer Prompt App.

Variable service : pystr -> pystr -> reply.
Variable build_fails : list flowable -> bool.
Variable stamp : pystr.
Variable alg : sum_algorithm.

Lemma city_lines_of_city_list (text : pystr) :
  city_list text = [] -> city_lines text = [].
Proof. unfold city_list, city_lines. apply map_eq_nil. Qed.

Lemma write_breakdown_trace (b : breakdown) (st : session_state)
    (tr : list event) :
  write_breakdown b st tr =
  (inr tt, st, tr ++ map (fun kv => WriteAmount (fst kv) (snd kv)) b).
Proof.
  revert tr. induction b as [|[k v] b IH]; intros tr; simpl.
  - now rewrite app_nil_r.
  - unfold mbind, emit. rewrite IH. now rewrite <- app_assoc.
Qed.

Lemma pdf_download_trace (plan : pyval) (st : session_state)
    (tr : list event) :
  exists e, pdf_download build_fails stamp plan st tr = (inr tt, st, tr ++ [e])
            /\ is_generation_event e = false /\ is_estimate_call e = false.
Proof.
  unfold pdf_download, emit.
  destruct plan; try (eexists; split; [reflexivity|now split]).
  destruct (build_fails _); eexists; (split; [reflexivity|now split]).
Qed.

(** A branch of [output] that raises before the estimator is called. *)
#[local] Ltac stops_early :=
  eexists _, _; rewrite <- !app_assoc; split; [reflexivity|];
  repeat split;
  [ repeat constructor
  | simpl; let H := fresh "H" in
    intros ? ? ? H; repeat destruct H as [H|H]; try discriminate H; destruct H
  | let H := fresh "H" in intros H; exfalso; auto ].

(** The output section leaves the state alone, builds no prompt and calls
    no service; it calls the estimator only under a stored itinerary, with
    the days of the stored fields. *)
Lemma output_trace (st : session_state) (tr : list event) :
  exists r ev,
    output build_fails stamp alg st tr = (r, st, tr ++ ev) /\
    Forall (fun e => is_generation_event e = false) ev /\
    (forall d b n, In (CallEstimateBudget d b n) ev ->
       exists plan days text,
         st !! "plan_md" = Some plan /\ truthy plan = true /\
         st !! "days" = Some (VInt days) /\
         st !! "cities" = Some (VStr text) /\
         d = days * Z.of_nat (length (city_lines text))) /\
    (st !! "plan_md" = Some (VStr []) -> ev = []).
Proof.
  unfold output, mbind, get_int, get_str, get, emit, lift, mret, mraise.
  destruct (st !! "plan_md") as [plan|] eqn:Eplan;
    [|exists (inl (KeyError "plan_md")), []; rewrite app_nil_r;
      repeat split; [constructor|intros ? ? ? []]].
  destruct (truthy plan) eqn:Etruthy;
    [|exists (inr tt), []; rewrite app_nil_r;
      repeat split; [constructor|intros ? ? ? []]].
  assert (Hplan : Some plan = Some (VStr []) -> False).
  { intros [= ->]. discriminate Etruthy. }
  unfold mbind.
  destruct (st !! "days") as [vdays|] eqn:Edays; cycle 1.
  { now stops_early. }
  destruct vdays as [|days| |];
    try (now stops_early).
  destruct (st !! "cities") as [vtext|] eqn:Etext; cycle 1.
  { now stops_early. }
  destruct vtext as [| |text|];
    try (now stops_early).
  destruct (st !! "daily_budget") as [vb|] eqn:Eb; cycle 1.
  { now stops_early. }
  destruct vb as [|budget| |];
    try (now stops_early).
  destruct (st !! "num_people") as [vn|] eqn:En; cycle 1.
  { now stops_early. }
  destruct vn as [|people| |];
    try (now stops_early).
  set (total_days := days * Z.of_nat (length (city_lines text))).
  assert (Hcall : forall d b n post,
    Forall (fun e => is_estimate_call e = false) post ->
    In (CallEstimateBudget d b n)
       ([Success (py "Travel plan generated!"); Subheader (py "AI Itinerary");
         Markdown match plan with VStr s => s | _ => [] end; Divider;
         Subheader (py "Budget Estimate");
         CallEstimateBudget total_days budget people] ++ post) ->
    exists plan0 days0 text0,
      Some plan = Some plan0 /\ truthy plan0 = true /\
      Some (VInt days) = Some (VInt days0) /\
      Some (VStr text) = Some (VStr text0) /\
      d = days0 * Z.of_nat (length (city_lines text0))).
  { intros d b n post Hpost H. apply in_app_or in H as [H|H].
    - simpl in H. repeat destruct H as [H|H]; try discriminate H; [|destruct H].
      injection H as <- _ _. now exists plan, days, text.
    - rewrite List.Forall_forall in Hpost. apply Hpost in H. discriminate H. }
  destruct (estimate_budget alg (PyInt total_days) (PyInt budget)
              (PyInt people)) as [e|[b total]].
  { eexists _, _. rewrite <- !app_assoc. split; [reflexivity|].
    repeat split; [repeat constructor| |intros H; now destruct Hplan].
    intros d b n H. apply (Hcall d b n []); [constructor|exact H]. }
  rewrite write_breakdown_trace. unfold mbind.
  match goal with
  | |- context [pdf_download _ _ _ _ ?X] =>
      destruct (pdf_download_trace plan st X) as (e & He & Hg & Hc);
      rewrite He
  end.
  eexists _, _. rewrite <- !app_assoc. split; [reflexivity|].
  assert (Hw : forall P : event -> Prop,
            (forall k v, P (WriteAmount k v)) ->
            Forall P (map (fun kv => WriteAmount (fst kv) (snd kv)) b)).
  { intros P HP. apply List.Forall_forall. intros x Hx. apply in_map_iff in Hx.
    destruct Hx as ([k v] & <- & _). apply HP. }
  repeat split; [| |intros H; now destruct Hplan].
  - rewrite !List.Forall_app. repeat split;
      try (now apply Hw);
      repeat (constructor; [reflexivity || exact Hg|]); constructor.
  - intros d b0 n H. eapply (Hcall d b0 n); [|exact H].
    rewrite !List.Forall_app. repeat split;
      try (now apply Hw);
      repeat (constructor; [reflexivity || exact Hc|]); constructor.
Qed.

Lemma script_unfold (submitted : bool) (st : session_state) :
  run service build_fails stamp alg submitted st =
  match main_action service submitted (init_state st) [] with
  | (inl e, st', tr') => (inl e, st', tr')
  | (inr _, st', tr') =>
      match output build_fails stamp alg st' tr' with
      | (inl e, st'', tr'') => (inl e, st'', tr'')
      | (inr _, st'', tr'') => (inr tt, st'', (tr'' ++ [Divider]) ++ [ResetButton])
      end
  end.
Proof.
  unfold run, script, mbind, emit.
  destruct (main_action service submitted (init_state st) []) as [[[e|[]] st'] tr'];
    [reflexivity|].
  destruct (output build_fails stamp alg st' tr') as [[[e|[]] st''] tr''];
    reflexivity.
Qed.

(** C6, amended. A submission whose cities field yields no city is
    answered by the warning alone: the handler builds no prompt, calls no
    service and leaves the state, hence the stored itinerary text, as it
    was.  In the rest of the run no prompt is built and no service is
    called either; the Budget Estimator is called only when an itinerary of
    an earlier submission is still stored, and then for zero days; with an
    empty stored itinerary the run ends after the warning. *)
Theorem C6_empty_cities_aborts (st : session_state) (text : pystr) :
  init_state st !! "cities" = Some (VStr text) ->
  city_list text = [] ->
  main_action service true (init_state st) [] =
    (inr tt, init_state st, [Warning (py "Please enter at least one city.")]) /\
  exists r ev,
    run service build_fails stamp alg true st =
      (r, init_state st, Warning (py "Please enter at least one city.") :: ev) /\
    Forall (fun e => is_generation_event e = false) ev /\
    (forall d b n, In (CallEstimateBudget d b n) ev ->
       d = 0 /\
       exists plan, init_state st !! "plan_md" = Some plan /\
                    truthy plan = true) /\
    (init_state st !! "plan_md" = Some (VStr []) ->
     ev = [Divider; ResetButton]).
Proof.
  intros Hc Hnone.
  assert (Hmain : main_action service true (init_state st) [] =
    (inr tt, init_state st, [Warning (py "Please enter at least one city.")])).
  { unfold main_action, get_str, get. cbv [mbind mret mraise emit].
    rewrite Hc, Hnone. reflexivity. }
  split; [exact Hmain|].
  rewrite script_unfold, Hmain.
  destruct (output_trace (init_state st)
              [Warning (py "Please enter at least one city.")])
    as (r & ev & Hout & Hgen & Hest & Hempty).
  rewrite Hout.
  assert (Hest' : forall d b n, In (CallEstimateBudget d b n) ev ->
            d = 0 /\ exists plan, init_state st !! "plan_md" = Some plan /\
                                  truthy plan = true).
  { intros d b n H. destruct (Hest d b n H) as (plan & days & text' & Hp & Ht & _ & Hx & ->).
    rewrite Hc in Hx. injection Hx as <-.
    rewrite (city_lines_of_city_list text Hnone). simpl.
    split; [lia|now exists plan]. }
  destruct r as [e|[]].
  - exists (inl e), ev. split; [reflexivity|]. split; [assumption|].
    split; [assumption|].
    intros H. specialize (Hempty H). subst ev.
    unfold output, get in Hout. cbv [mbind mret] in Hout.
    rewrite H in Hout. discriminate Hout.
  - exists (inr tt), (ev ++ [Divider; ResetButton]).
    split; [simpl; now rewrite <- app_assoc|].
    split; [rewrite List.Forall_app; split; [assumption|];
            repeat (constructor; [reflexivity|]); constructor|].
    split.
    + intros d b n H. apply in_app_or in H as [H|H]; [now apply (Hest' d b n)|].
      simpl in H. repeat destruct H as [H|H]; try discriminate H. destruct H.
    + intros H. now rewrite (Hempty H).
Qed.


End AppFacts.

Section AppExamples.
Import PyStr Spec Session Float64 Budget Renderer Prompt App.

(** A service that is never reached, a document build that succeeds. *)
Let no_service : pystr -> pystr -> reply := fun _ _ => Responds [].
Let build_ok : list flowable -> bool := fun _ => false.
Let at_noon : pystr := py "2025-06-01 12:00".

(** C6, as stated, fails: with an itinerary of an earlier submission still
    stored, a submission without cities is warned about and the same run
    goes on to call the Budget Estimator, for zero days. *)
Lemma C6_counterexample :
  let st : session_state :=
    <["plan_md" := VStr (py "## Rome")]> (<["cities" := VStr (py "  ")]> ∅) in
  let tr := snd (run no_service build_ok at_noon LeftToRight true st) in
  city_list (py "  ") = [] /\
  hd_error tr = Some (Warning (py "Please enter at least one city.")) /\
  In (CallEstimateBudget 0 300 1) tr /\
  In (WriteTotal (PyFloat (S754_zero false))) tr.
Proof.
  vm_compute. split; [reflexivity|]. split; [reflexivity|].
  split; [do 6 right; left; reflexivity|do 11 right; left; reflexivity].
Qed.

(** The theorem at a fresh session submitted with a blank cities field. *)
Lemma C6_witness :
  let st : session_state := <["cities" := VStr (py "  ")]> ∅ in
  main_action no_service true (init_state st) [] =
    (inr tt, init_state st, [Warning (py "Please enter at least one city.")]) /\
  run no_service build_ok at_noon LeftToRight true st =
    (inr tt, init_state st,
     [Warning (py "Please enter at least one city."); Divider; ResetButton]).
Proof.
  intros st.
  destruct (C6_empty_cities_aborts no_service build_ok at_noon LeftToRight
              st (py "  ") eq_refl eq_refl) as (Hmain & _).
  split; [exact Hmain|]. vm_compute. reflexivity.
Defined.



End AppExamples.

(* ===================================================================== *)
(** * Rounding in binary64 *)
(* ===================================================================== *)

Section Rounding.
Import Float64.
#[local] Open Scope Z_scope.

(** ** Number of binary digits *)

Lemma digits2_pos_size (m : positive) : digits2_pos m = Pos.size m.
Proof. induction m; simpl; congruence. Qed.

Lemma digits2_bounds (m : positive) :
  2 ^ (Zpos (digits2_pos m) - 1) <= Zpos m < 2 ^ Zpos (digits2_pos m).
Proof.
  induction m as [m IH|m IH|]; cbn [digits2_pos].
  - rewrite Pos2Z.inj_succ.
    replace (Z.succ (Zpos (digits2_pos m)) - 1) with (Z.succ (Zpos (digits2_pos m) - 1)) by lia.
    rewrite !Z.pow_succ_r by lia. lia.
  - rewrite Pos2Z.inj_succ.
    replace (Z.succ (Zpos (digits2_pos m)) - 1) with (Z.succ (Zpos (digits2_pos m) - 1)) by lia.
    rewrite !Z.pow_succ_r by lia. lia.
  - simpl. lia.
Qed.

Lemma digits2_unique (m : positive) (k : Z) :
  2 ^ (k - 1) <= Zpos m < 2 ^ k -> Zpos (digits2_pos m) = k.
Proof.
  intros [Hlo Hhi]. pose proof (digits2_bounds m) as [Dlo Dhi].
  set (d := Zpos (digits2_pos m)) in *.
  assert (0 < k).
  { destruct (Z_lt_le_dec 0 k) as [|Hk]; [assumption|].
    assert (2 ^ k <= 1).
    { destruct (Z.eq_dec k 0) as [->|]; [simpl; lia|].
      rewrite Z.pow_neg_r by lia. lia. }
    lia. }
  destruct (Z_lt_le_dec d k) as [Hlt|Hge].
  - assert (2 ^ d <= 2 ^ (k - 1)) by (apply Z.pow_le_mono_r; lia). lia.
  - destruct (Z_lt_le_dec k d) as [Hlt|Hle]; [|lia].
    assert (2 ^ k <= 2 ^ (d - 1)) by (apply Z.pow_le_mono_r; lia). lia.
Qed.

Lemma iter_xO_value (p m : positive) :
  Zpos (Pos.iter xO m p) = Zpos m * 2 ^ Zpos p.
Proof.
  induction p as [|p IH] using Pos.peano_ind.
  - simpl. lia.
  - rewrite Pos.iter_succ, Pos2Z.inj_succ, Z.pow_succ_r by lia.
    rewrite Pos2Z.inj_xO, IH. lia.
Qed.

Lemma iter_xO_digits (p m : positive) :
  Zpos (digits2_pos (Pos.iter xO m p)) = Zpos (digits2_pos m) + Zpos p.
Proof.
  induction p as [|p IH] using Pos.peano_ind.
  - simpl. lia.
  - rewrite Pos.iter_succ. cbn [digits2_pos].
    rewrite Pos2Z.inj_succ, IH. lia.
Qed.

(** ** Shifting right with a round and a sticky bit *)

(** [mrs] is what remains of the integer [M] after [n] right shifts. *)
Definition shr_inv (M n : Z) (mrs : shr_record) : Prop :=
  let rem := M - shr_m mrs * 2 ^ n in
  0 <= shr_m mrs /\ 0 <= rem < 2 ^ n /\
  shr_r mrs = (2 ^ n <=? 2 * rem) /\
  shr_s mrs = negb (rem =? 0) && negb (2 * rem =? 2 ^ n).

Lemma shr_inv_start (M : Z) :
  0 <= M -> shr_inv M 0 {| shr_m := M; shr_r := false; shr_s := false |}.
Proof.
  intros H. unfold shr_inv. simpl.
  replace (M - M * 1) with 0 by lia. repeat split; try lia; reflexivity.
Qed.

Lemma shr_1_inv (M n : Z) (mrs : shr_record) :
  0 <= n -> shr_inv M n mrs -> shr_inv M (n + 1) (shr_1 mrs).
Proof.
  intros Hn. destruct mrs as [m r s]. unfold shr_inv. simpl shr_m.
  simpl shr_r. simpl shr_s. intros (Hm & Hrem & Hr & Hs).
  rewrite Z.pow_add_r by lia. change (2 ^ 1) with 2.
  set (P := 2 ^ n) in *. assert (0 < P) by (apply Z.pow_pos_nonneg; lia).
  subst r s.
  destruct m as [|p|p]; [|destruct p as [p|p|]|lia]; simpl;
    (split; [lia|]); (split; [lia|]);
    repeat match goal with
           | |- context [Z.leb ?a ?b] => destruct (Z.leb_spec a b)
           | |- context [Z.eqb ?a ?b] => destruct (Z.eqb_spec a b)
           end; simpl; split; try reflexivity; lia.
Qed.

Lemma iter_shr_1_inv (p : positive) (M n : Z) (mrs : shr_record) :
  0 <= n -> shr_inv M n mrs ->
  shr_inv M (n + Zpos p) (SpecFloat.iter_pos shr_1 p mrs).
Proof.
  revert n mrs. induction p as [p IH|p IH|]; intros n mrs Hn H; simpl.
  - replace (n + Zpos p~1) with (((n + 1) + Zpos p) + Zpos p) by lia.
    apply IH; [lia|]. apply IH; [lia|]. now apply shr_1_inv.
  - replace (n + Zpos p~0) with ((n + Zpos p) + Zpos p) by lia.
    apply IH; [lia|]. now apply IH.
  - now apply shr_1_inv.
Qed.

(** Rounding to nearest (ties to even) what [n] shifts left over. *)
Lemma round_nearest_even_inv (M n : Z) (mrs : shr_record) :
  0 <= n -> shr_inv M n mrs ->
  let m1 := round_nearest_even (shr_m mrs) (loc_of_shr_record mrs) in
  shr_m mrs <= m1 <= shr_m mrs + 1 /\
  Z.abs (2 * (m1 * 2 ^ n - M)) <= 2 ^ n.
Proof.
  intros Hn. destruct mrs as [m r s]. unfold shr_inv. simpl shr_m.
  simpl shr_r. simpl shr_s. intros (Hm & Hrem & Hr & Hs).
  set (P := 2 ^ n) in *. assert (0 < P) by (apply Z.pow_pos_nonneg; lia).
  set (rem := M - m * P) in *.
  assert (HM : M = m * P + rem) by (unfold rem; lia). clearbody rem.
  destruct r, s; simpl;
    symmetry in Hr, Hs;
    [ apply Z.leb_le in Hr | apply Z.leb_le in Hr
    | apply Z.leb_gt in Hr | apply Z.leb_gt in Hr ];
    destruct (Z.eqb_spec rem 0), (Z.eqb_spec (2 * rem) P);
    simpl in Hs; try discriminate Hs;
    try destruct (Z.even m); split; try lia; subst M; nia.
Qed.

(** ** [binary_round_aux] *)

Lemma fexp_eq (e : Z) : fexp prec emax e = Z.max (e - 53) (-1074).
Proof. reflexivity. Qed.

Lemma shr_nonpos (mrs : shr_record) (e n : Z) : n <= 0 -> shr mrs e n = (mrs, e).
Proof. destruct n; [reflexivity|lia|reflexivity]. Qed.

Lemma shr_pos (mrs : shr_record) (e n : Z) :
  0 < n -> shr mrs e n = (SpecFloat.iter_pos shr_1 (Z.to_pos n) mrs, e + n).
Proof. destruct n as [|p|p]; try lia. reflexivity. Qed.

(** A significand that needs no shift is kept as it is. *)
Lemma binary_round_aux_exact (s : bool) (mx : positive) (ex : Z) :
  fexp prec emax (Zpos (digits2_pos mx) + ex) <= ex -> ex <= 971 ->
  binary_round_aux prec emax s (Zpos mx) ex loc_Exact = S754_finite s mx ex.
Proof.
  intros Hf He. unfold binary_round_aux, shr_fexp.
  cbn [Zdigits2 shr_record_of_loc].
  rewrite shr_nonpos by lia. cbn [shr_m loc_of_shr_record round_nearest_even].
  cbn [Zdigits2 shr_record_of_loc]. rewrite shr_nonpos by lia. cbn [shr_m].
  change (emax - prec) with 971.
  destruct (Z.leb_spec ex 971); [reflexivity|lia].
Qed.

(** A significand of 54 digits or more, in the normal range and below the
    overflow threshold, is rounded to 53 digits, to the nearest. *)
Lemma binary_round_aux_round (s : bool) (mx : positive) (ex : Z) :
  let d := Zpos (digits2_pos mx) in
  54 <= d -> -1074 <= d + ex - 53 -> d + ex <= 1023 ->
  exists (m2 : positive) (e2 : Z),
    binary_round_aux prec emax s (Zpos mx) ex loc_Exact = S754_finite s m2 e2 /\
    2 ^ 52 <= Zpos m2 < 2 ^ 53 /\
    ex < e2 /\ -1074 <= e2 <= 971 /\
    Z.abs (2 * (Zpos m2 * 2 ^ (e2 - ex) - Zpos mx)) <= 2 ^ (d - 53).
Proof.
  intros d Hd Hlo Hhi. set (n := d - 53). set (e1 := ex + n).
  unfold binary_round_aux, shr_fexp. cbn [Zdigits2 shr_record_of_loc].
  fold d. rewrite fexp_eq.
  replace (Z.max (d + ex - 53) (-1074) - ex) with n by (unfold n; lia).
  rewrite shr_pos by (unfold n; lia).
  pose proof (iter_shr_1_inv (Z.to_pos n) (Zpos mx) 0 _ (Z.le_refl 0)
                (shr_inv_start (Zpos mx) (Pos2Z.is_nonneg mx))) as Hinv.
  rewrite Z2Pos.id in Hinv by (unfold n; lia). rewrite Z.add_0_l in Hinv.
  set (mrs := SpecFloat.iter_pos shr_1 (Z.to_pos n) _) in *.
  pose proof (round_nearest_even_inv (Zpos mx) n mrs ltac:(unfold n; lia) Hinv)
    as [Hm1 Herr].
  set (m1 := round_nearest_even (shr_m mrs) (loc_of_shr_record mrs)) in *.
  destruct Hinv as (Hm & Hrem & _).
  assert (HP : 0 < 2 ^ n) by (apply Z.pow_pos_nonneg; unfold n; lia).
  assert (Hdig : 2 ^ 52 * 2 ^ n <= Zpos mx < 2 ^ 53 * 2 ^ n).
  { pose proof (digits2_bounds mx) as Hdig. fold d in Hdig.
    rewrite <- !Z.pow_add_r by (unfold n; lia).
    replace (52 + n) with (d - 1) by (unfold n; lia).
    replace (53 + n) with d by (unfold n; lia). exact Hdig. }
  set (P := 2 ^ n) in *.
  change (2 ^ 52) with 4503599627370496 in *.
  change (2 ^ 53) with 9007199254740992 in *.
  assert (Hm' : 4503599627370496 <= shr_m mrs < 9007199254740992) by (split; nia).
  assert (Hm1' : 4503599627370496 <= m1 <= 9007199254740992) by lia.
  replace (d - 53) with n by reflexivity. fold P.
  destruct (Z.eq_dec m1 9007199254740992) as [E|NE].
  - rewrite E in *. cbn [Zdigits2 shr_record_of_loc].
    change (Zpos (digits2_pos 9007199254740992)) with 54.
    rewrite fexp_eq.
    replace (Z.max (54 + (ex + n) - 53) (-1074) - (ex + n)) with 1 by lia.
    cbn [shr SpecFloat.iter_pos shr_1 shr_m]. 
    change (emax - prec) with 971.
    destruct (Z.leb_spec (ex + n + 1) 971); [|unfold n in *; lia].
    eexists _, _. split; [reflexivity|].
    split; [simpl; lia|]. split; [unfold n; lia|].
    split; [unfold n in *; lia|].
    replace (ex + n + 1 - ex) with (n + 1) by lia.
    rewrite Z.pow_add_r by (unfold n; lia). fold P.
    change (2 ^ 1) with 2. lia.
  - destruct m1 as [|q|q] eqn:Eq; try (simpl in Hm1'; lia).
    assert (Hq : Zpos (digits2_pos q) = 53).
    { apply digits2_unique. change (2 ^ (53 - 1)) with 4503599627370496.
      change (2 ^ 53) with 9007199254740992. lia. }
    cbn [Zdigits2 shr_record_of_loc]. rewrite Hq, fexp_eq.
    rewrite shr_nonpos by lia. cbn [shr_m].
    change (emax - prec) with 971.
    destruct (Z.leb_spec (ex + n) 971); [|unfold n in *; lia].
    exists q, (ex + n). split; [reflexivity|].
    split; [lia|]. split; [unfold n; lia|]. split; [unfold n in *; lia|].
    replace (ex + n - ex) with n by lia. fold P. exact Herr.
Qed.

(** ** [binary_round] *)

Lemma shl_align_spec (mx : positive) (ex e' : Z) :
  let '(mz, ez) := shl_align mx ex e' in
  ez = Z.min ex e' /\
  Zpos mz = Zpos mx * 2 ^ (ex - ez) /\
  Zpos (digits2_pos mz) = Zpos (digits2_pos mx) + (ex - ez).
Proof.
  unfold shl_align. destruct (e' - ex) as [|p|p] eqn:E.
  - replace (ex - ex) with 0 by lia. simpl. lia.
  - replace (ex - ex) with 0 by lia. simpl. lia.
  - replace (ex - e') with (Zpos p) by lia.
    rewrite iter_xO_value, iter_xO_digits. lia.
Qed.

(** [binary_round] on a significand at an exponent not below the least
    one: the result is finite, exact when the significand fits, and
    otherwise the nearest 53-digit one. *)
Lemma binary_round_spec (s : bool) (mx : positive) (ex : Z) :
  let d := Zpos (digits2_pos mx) in
  -1074 <= ex -> d + ex <= 1023 ->
  exists (m2 : positive) (e2 : Z),
    binary_round prec emax s mx ex = S754_finite s m2 e2 /\
    -1074 <= e2 <= 971 /\
    (-1074 <= d + ex - 53 -> 2 ^ 52 <= Zpos m2 < 2 ^ 53) /\
    ((e2 <= ex /\ Zpos m2 = Zpos mx * 2 ^ (ex - e2)) \/
     (ex < e2 /\ 54 <= d /\
      Z.abs (2 * (Zpos m2 * 2 ^ (e2 - ex) - Zpos mx)) <= 2 ^ (d - 53))).
Proof.
  intros d Hex Hhi. unfold binary_round. fold d. rewrite fexp_eq.
  destruct (Z_lt_le_dec 53 d) as [Hbig|Hsmall].
  - (* 54 digits or more: no alignment, rounding *)
    pose proof (shl_align_spec mx ex (Z.max (d + ex - 53) (-1074))) as Hal.
    unfold shl_align in *.
    destruct (Z.max (d + ex - 53) (-1074) - ex) as [|p|p] eqn:E; try lia.
    destruct (binary_round_aux_round s mx ex) as (m2 & e2 & H1 & H2 & H3 & H4 & H5);
      fold d; try lia.
    exists m2, e2. split; [exact H1|]. split; [exact H4|].
    split; [intros _; exact H2|]. right. fold d in H5. lia.
  - (* at most 53 digits: aligned, exact *)
    pose proof (shl_align_spec mx ex (Z.max (d + ex - 53) (-1074))) as Hal.
    destruct (shl_align mx ex (Z.max (d + ex - 53) (-1074))) as [mz ez].
    destruct Hal as (Hez & Hmz & Hdz). fold d in Hdz.
    assert (Hez' : ez = Z.max (d + ex - 53) (-1074)) by lia.
    rewrite binary_round_aux_exact.
    + exists mz, ez. split; [reflexivity|]. split; [lia|].
      split; [|left; split; [lia|exact Hmz]].
      intros Hn. pose proof (digits2_bounds mz) as B. rewrite Hdz in B.
      replace (d + (ex - ez)) with 53 in B by lia. exact B.
    + rewrite fexp_eq, Hdz. lia.
    + lia.
Qed.

End Rounding.

(* ===================================================================== *)
(** * The float operations on the real line *)
(* ===================================================================== *)

Section RoundingR.
Import Float64 FloatSpec.
#[local] Open Scope R_scope.

Lemma bpow_pos (e : Z) : 0 < bpow e.
Proof. apply powerRZ_lt. lra. Qed.

Lemma bpow_add (e1 e2 : Z) : bpow (e1 + e2) = bpow e1 * bpow e2.
Proof. apply powerRZ_add. lra. Qed.

Lemma bpow_IZR (k : Z) : (0 <= k)%Z -> bpow k = IZR (2 ^ k).
Proof.
  intros Hk. unfold bpow. rewrite <- (Z2Nat.id k Hk) at 2.
  rewrite <- pow_IZR. rewrite <- (Z2Nat.id k Hk) at 1.
  now rewrite <- pow_powerRZ.
Qed.

Lemma bpow_le (e1 e2 : Z) : (e1 <= e2)%Z -> bpow e1 <= bpow e2.
Proof.
  intros H. replace e2 with (e1 + (e2 - e1))%Z by lia. rewrite bpow_add.
  rewrite (bpow_IZR (e2 - e1)) by lia.
  assert (1 <= IZR (2 ^ (e2 - e1))).
  { apply IZR_le. assert (0 < 2 ^ (e2 - e1))%Z by (apply Z.pow_pos_nonneg; lia). lia. }
  pose proof (bpow_pos e1). nra.
Qed.

Lemma bpow_lt_inv (e1 e2 : Z) : bpow e1 < bpow e2 -> (e1 < e2)%Z.
Proof.
  intros H. destruct (Z_lt_le_dec e1 e2) as [|Hge]; [assumption|].
  apply bpow_le in Hge. lra.
Qed.

(** The value of a significand with [d] digits lies in [2^(d-1), 2^d). *)
Lemma value_digits (m : positive) (e : Z) :
  let d := Zpos (digits2_pos m) in
  bpow (d - 1 + e) <= IZR (Zpos m) * bpow e < bpow (d + e).
Proof.
  intros d. pose proof (digits2_bounds m) as [Hlo Hhi]. fold d in Hlo, Hhi.
  assert (Hd : (1 <= d)%Z) by (unfold d; lia).
  rewrite !bpow_add, (bpow_IZR (d - 1)), (bpow_IZR d) by lia.
  apply IZR_le in Hlo. apply IZR_lt in Hhi. pose proof (bpow_pos e). nra.
Qed.

Lemma u_value : u = / 9007199254740992.
Proof. unfold u, bpow. simpl. lra. Qed.

(** The integer bound on a rounded significand, read on the real line. *)
Lemma round_error_R (mx m2 : positive) (ex e2 : Z) :
  let d := Zpos (digits2_pos mx) in
  (ex < e2)%Z -> (54 <= d)%Z ->
  (Z.abs (2 * (Zpos m2 * 2 ^ (e2 - ex) - Zpos mx)) <= 2 ^ (d - 53))%Z ->
  Rabs (IZR (Zpos m2) * bpow e2 - IZR (Zpos mx) * bpow ex)
  <= u * (IZR (Zpos mx) * bpow ex).
Proof.
  intros d Hlt Hd54 Herr.
  assert (Hsplit : IZR (Zpos m2) * bpow e2 - IZR (Zpos mx) * bpow ex =
                   IZR (Zpos m2 * 2 ^ (e2 - ex) - Zpos mx) * bpow ex).
  { rewrite minus_IZR, mult_IZR, <- bpow_IZR by lia.
    replace e2 with ((e2 - ex) + ex)%Z at 1 by lia. rewrite bpow_add. ring. }
  rewrite Hsplit, Rabs_mult, (Rabs_pos_eq (bpow ex))
    by (left; apply bpow_pos).
  rewrite <- abs_IZR.
  assert (H1 : 2 * IZR (Z.abs (Zpos m2 * 2 ^ (e2 - ex) - Zpos mx))
               <= IZR (2 ^ (d - 53))).
  { rewrite <- mult_IZR. apply IZR_le.
    rewrite Z.abs_mul in Herr. simpl Z.abs in Herr. exact Herr. }
  assert (H2 : IZR (2 ^ 53) * IZR (2 ^ (d - 54)) <= IZR (Zpos mx)).
  { rewrite <- mult_IZR, <- Z.pow_add_r by lia.
    replace (53 + (d - 54))%Z with (d - 1)%Z by lia.
    apply IZR_le. apply (digits2_bounds mx). }
  assert (H3 : IZR (2 ^ (d - 53)) = 2 * IZR (2 ^ (d - 54))).
  { replace (d - 53)%Z with (Z.succ (d - 54)) by lia.
    rewrite Z.pow_succ_r, mult_IZR by lia. reflexivity. }
  rewrite u_value. change (IZR (2 ^ 53)) with 9007199254740992 in H2.
  pose proof (bpow_pos ex) as Hb.
  set (a := IZR (Z.abs (Zpos m2 * 2 ^ (e2 - ex) - Zpos mx))) in *.
  set (q := IZR (2 ^ (d - 54))) in *.
  assert (a <= / 9007199254740992 * IZR (Zpos mx)) by lra.
  apply (Rmult_le_compat_r (bpow ex)) in H; [|lra]. lra.
Qed.

(** [binary_round] rounds a positive value below the overflow threshold to
    a finite float within the unit roundoff. *)
Lemma binary_round_R (s : bool) (mx : positive) (ex : Z) :
  let x := IZR (Zpos mx) * bpow ex in
  (-1074 <= ex)%Z -> x < bpow 1023 ->
  exists (m2 : positive) (e2 : Z),
    binary_round prec emax s mx ex = S754_finite s m2 e2 /\
    (-1074 <= e2 <= 971)%Z /\
    (bpow (-1022) <= x -> (2 ^ 52 <= Zpos m2 < 2 ^ 53)%Z) /\
    Rabs (IZR (Zpos m2) * bpow e2 - x) <= u * x.
Proof.
  intros x Hex Hx. pose proof (value_digits mx ex) as [Vlo Vhi].
  set (d := Zpos (digits2_pos mx)) in *. fold x in Vlo, Vhi.
  assert (Hd : (d + ex <= 1023)%Z).
  { assert (bpow (d - 1 + ex) < bpow 1023) by lra.
    apply bpow_lt_inv in H. lia. }
  destruct (binary_round_spec s mx ex Hex Hd) as (m2 & e2 & E & He2 & Hn & Hv).
  exists m2, e2. split; [exact E|]. split; [exact He2|]. split.
  - intros Hlo. apply Hn. fold d.
    assert (bpow (-1022) < bpow (d + ex)) by lra.
    apply bpow_lt_inv in H. lia.
  - assert (Hxpos : 0 < x) by (pose proof (bpow_pos (d - 1 + ex)); lra).
    destruct Hv as [[Hle Hm]|(Hlt & Hd54 & Herr)].
    + (* exact *)
      replace (IZR (Zpos m2) * bpow e2) with x.
      * rewrite Rminus_diag, Rabs_R0. pose proof (bpow_pos (-53)).
        unfold u. nra.
      * unfold x. rewrite Hm, mult_IZR, <- bpow_IZR by lia.
        rewrite Rmult_assoc, <- bpow_add. f_equal. f_equal. lia.
    + (* rounded *)
      now apply round_error_R.
Qed.

Lemma B2R_finite (s : bool) (m : positive) (e : Z) :
  B2R (S754_finite s m e) = sgn s * (IZR (Zpos m) * bpow e).
Proof. unfold B2R, sgn. destruct s; ring. Qed.

Lemma Rabs_sgn (s : bool) (x : R) : Rabs (sgn s * x) = Rabs x.
Proof.
  unfold sgn. destruct s.
  - replace (-1 * x) with (- x) by ring. apply Rabs_Ropp.
  - now rewrite Rmult_1_l.
Qed.

Lemma normal_fin (f : float) : normal f -> fin f.
Proof. destruct f; simpl; tauto. Qed.

(** [binary_normalize] rounds any integer multiple of a power of two at an
    exponent not below the least one. *)
Lemma binary_normalize_R (M e : Z) (sz : bool) :
  let x := IZR M * bpow e in
  let r := binary_normalize prec emax M e sz in
  (-1074 <= e)%Z -> Rabs x < bpow 1023 ->
  fin r /\
  Rabs (B2R r - x) <= u * Rabs x /\
  (bpow (-1022) <= Rabs x -> normal r) /\
  (M = 0%Z -> r = S754_zero sz).
Proof.
  intros x r He Hx. subst x r. pose proof (bpow_pos e) as Hb.
  destruct M as [|p|p]; unfold binary_normalize.
  - rewrite Rmult_0_l, Rabs_R0, Rmult_0_r. simpl.
    rewrite Rminus_diag, Rabs_R0. repeat split; try lra.
  - assert (Hpos : 0 < IZR (Zpos p) * bpow e).
    { apply Rmult_lt_0_compat; [apply IZR_lt; lia|exact Hb]. }
    rewrite (Rabs_pos_eq (IZR (Zpos p) * bpow e)) in * by lra.
    destruct (binary_round_R false p e He Hx) as (m2 & e2 & E & He2 & Hn & Herr).
    rewrite E, B2R_finite. unfold sgn. rewrite Rmult_1_l.
    split; [simpl; lia|]. split; [assumption|].
    split; [|discriminate]. intros H. split; [now apply Hn|lia].
  - assert (Hpos : 0 < IZR (Zpos p) * bpow e).
    { apply Rmult_lt_0_compat; [apply IZR_lt; lia|exact Hb]. }
    assert (Hneg : IZR (Zneg p) * bpow e = - (IZR (Zpos p) * bpow e)).
    { change (Zneg p) with (- Zpos p)%Z. rewrite opp_IZR. ring. }
    rewrite Hneg, Rabs_Ropp, (Rabs_pos_eq (IZR (Zpos p) * bpow e)) in * by lra.
    destruct (binary_round_R true p e He Hx) as (m2 & e2 & E & He2 & Hn & Herr).
    rewrite E, B2R_finite. unfold sgn.
    replace (-1 * (IZR (Zpos m2) * bpow e2) - - (IZR (Zpos p) * bpow e))
      with (- (IZR (Zpos m2) * bpow e2 - IZR (Zpos p) * bpow e)) by ring.
    rewrite Rabs_Ropp.
    split; [simpl; lia|]. split; [assumption|].
    split; [|discriminate]. intros H. split; [now apply Hn|lia].
Qed.

(** [float(z)] for an int below the overflow threshold. *)
Lemma round_int_R (z : Z) :
  (Z.abs z < 2 ^ 1023)%Z ->
  fin (round_int z) /\
  Rabs (B2R (round_int z) - IZR z) <= u * Rabs (IZR z) /\
  (z <> 0%Z -> normal (round_int z)) /\
  (z = 0%Z -> round_int z = S754_zero false).
Proof.
  intros Hz. unfold round_int.
  assert (Hx : Rabs (IZR z * bpow 0) < bpow 1023).
  { rewrite (bpow_IZR 1023) by lia. change (bpow 0) with 1. rewrite Rmult_1_r.
    rewrite <- abs_IZR. now apply IZR_lt. }
  destruct (binary_normalize_R z 0 false ltac:(lia) Hx) as (Hf & He & Hn & H0).
  change (bpow 0) with 1 in *. rewrite Rmult_1_r in *.
  repeat split; try assumption.
  intros Hne. apply Hn. rewrite <- abs_IZR.
  apply Rle_trans with 1.
  - unfold bpow. simpl. lra.
  - apply IZR_le. lia.
Qed.

Lemma sgn_xorb (s1 s2 : bool) : sgn (xorb s1 s2) = sgn s1 * sgn s2.
Proof. destruct s1, s2; unfold sgn; simpl; ring. Qed.

(** The product of two normal floats, in the normal range and below the
    overflow threshold, is normal and within the unit roundoff. *)
Lemma fmul_R (f1 f2 : float) :
  let X := B2R f1 * B2R f2 in
  normal f1 -> normal f2 ->
  bpow (-1021) <= Rabs X -> Rabs X < bpow 1023 ->
  normal (fmul f1 f2) /\
  Rabs (B2R (fmul f1 f2) - X) <= u * Rabs X.
Proof.
  intros X. subst X.
  intros N1 N2.
  destruct f1 as [| | |s1 m1 e1]; try contradiction.
  destruct f2 as [| | |s2 m2 e2]; try contradiction.
  destruct N1 as [Hm1 He1], N2 as [Hm2 He2]. rewrite !B2R_finite.
  set (V := IZR (Zpos (m1 * m2)) * bpow (e1 + e2)).
  replace (sgn s1 * (IZR (Zpos m1) * bpow e1) * (sgn s2 * (IZR (Zpos m2) * bpow e2)))
    with (sgn (xorb s1 s2) * V)
    by (unfold V; rewrite sgn_xorb, Pos2Z.inj_mul, mult_IZR, bpow_add; ring).
  rewrite Rabs_sgn.
  pose proof (value_digits (m1 * m2) (e1 + e2)) as [Vlo Vhi]. fold V in Vlo, Vhi.
  set (d := Zpos (digits2_pos (m1 * m2))) in *.
  assert (HV : 0 < V).
  { pose proof (bpow_pos (d - 1 + (e1 + e2))). lra. }
  rewrite (Rabs_pos_eq V) by lra. intros Hlo Hhi.
  assert (Hd : (54 <= d)%Z).
  { pose proof (digits2_bounds (m1 * m2)) as [_ B]. fold d in B.
    rewrite Pos2Z.inj_mul in B.
    destruct (Z_lt_le_dec d 54) as [Hlt|]; [|assumption].
    assert (2 ^ d <= 2 ^ 53)%Z by (apply Z.pow_le_mono_r; lia).
    change (2 ^ 52)%Z with 4503599627370496%Z in *.
    change (2 ^ 53)%Z with 9007199254740992%Z in *. nia. }
  assert (Hd1 : (-1074 <= d + (e1 + e2) - 53)%Z).
  { assert (bpow (-1021) < bpow (d + (e1 + e2))) by lra.
    apply bpow_lt_inv in H. lia. }
  assert (Hd2 : (d + (e1 + e2) <= 1023)%Z).
  { assert (bpow (d - 1 + (e1 + e2)) < bpow 1023) by lra.
    apply bpow_lt_inv in H. lia. }
  destruct (binary_round_aux_round (xorb s1 s2) (m1 * m2) (e1 + e2) Hd Hd1 Hd2)
    as (m & e & E & Hm & Hlt & He & Herr).
  unfold fmul, SFmul. rewrite E. split; [split; [exact Hm|lia]|].
  rewrite B2R_finite, <- Rmult_minus_distr_l, Rabs_sgn.
  now apply round_error_R.
Qed.

(** A zero times a finite float is a zero. *)
Lemma fmul_zero_l (s : bool) (f : float) :
  fin f -> exists s', fmul (S754_zero s) f = S754_zero s'.
Proof. destruct f; simpl; intros H; try contradiction; eexists; reflexivity. Qed.





End RoundingR.

(* ===================================================================== *)
(** * The budget estimator: totality and accuracy *)
(* ===================================================================== *)

Section BudgetFacts.
Import Float64 Budget FloatSpec.
#[local] Open Scope R_scope.

(** The float literals of the estimator. *)
Lemma weights_values :
  w_accommodation = S754_finite false 7205759403792794 (-54) /\
  w_food = S754_finite false 4503599627370496 (-54) /\
  w_transport = S754_finite false 5404319552844595 (-55) /\
  w_activities = S754_finite false 7205759403792794 (-55).
Proof. repeat split; vm_compute; reflexivity. Qed.

Lemma bpow_neg_value (k : positive) : bpow (Zneg k) = / IZR (2 ^ Zpos k).
Proof.
  change (Zneg k) with (- Zpos k)%Z. unfold bpow.
  rewrite powerRZ_neg' . f_equal. apply (bpow_IZR (Zpos k)). lia.
Qed.

Lemma weight_normal (w : float) :
  is_weight w -> normal w /\ / 10 <= B2R w <= / 2.
Proof.
  destruct weights_values as (E1 & E2 & E3 & E4).
  intros [ -> | [ -> | [ -> | -> ] ] ]; rewrite ?E1, ?E2, ?E3, ?E4;
    (split; [split; [vm_compute; split; [discriminate|reflexivity]|lia]|]);
    rewrite B2R_finite; unfold sgn; rewrite bpow_neg_value;
    match goal with
    | |- context [IZR (2 ^ ?k)] =>
        let v := eval vm_compute in (2 ^ k)%Z in change (2 ^ k)%Z with v
    end; lra.
Qed.


Lemma int_to_float_ok (z : Z) :
  (Z.abs z < 2 ^ 1023)%Z -> int_to_float z = inr (round_int z).
Proof.
  intros H. destruct (round_int_R z H) as (Hf & _).
  unfold int_to_float. destruct (round_int z); try reflexivity.
  contradiction.
Qed.

Lemma u_small : 0 < u <= / 1000000.
Proof. rewrite u_value. lra. Qed.

(** A relative error bound read on absolute values. *)
Lemma rel_abs_bounds (v r x : R) :
  Rabs (r - x) <= v * Rabs x ->
  (1 - v) * Rabs x <= Rabs r <= (1 + v) * Rabs x.
Proof.
  intros H. pose proof (Rabs_triang_inv x r) as H1.
  pose proof (Rabs_triang_inv r x) as H2.
  rewrite (Rabs_minus_sym x r) in H1. lra.
Qed.

Lemma bpow_1023_value : bpow 1023 = bpow 1000 * 8388608.
Proof.
  change 1023%Z with (1000 + 23)%Z. rewrite bpow_add. f_equal.
  unfold bpow. simpl. lra.
Qed.

Lemma bpow_m1021_small : bpow (-1021) <= / 32.
Proof.
  apply Rle_trans with (bpow (-5)); [apply bpow_le; lia|].
  unfold bpow. simpl. lra.
Qed.

(** An int below the threshold, as a float, times a weight: no overflow,
    no underflow. *)
Lemma fmul_round_int_weight (T : Z) (w : float) :
  (Z.abs T < 2 ^ 1023)%Z -> is_weight w ->
  fin (fmul (round_int T) w) /\
  (T <> 0%Z -> normal (fmul (round_int T) w) /\
     Rabs (B2R (fmul (round_int T) w) - B2R (round_int T) * B2R w)
     <= u * Rabs (B2R (round_int T) * B2R w)).
Proof.
  intros HT Hw. destruct (round_int_R T HT) as (Hf & He & Hn & H0).
  destruct (weight_normal w Hw) as (Nw & Wlo & Whi).
  destruct (Z.eq_dec T 0%Z) as [ -> | Hne ].
  - split; [|congruence]. rewrite (H0 eq_refl).
    destruct (fmul_zero_l false w (normal_fin w Nw)) as [s' ->]. exact I.
  - assert (HN : normal (fmul (round_int T) w) /\
       Rabs (B2R (fmul (round_int T) w) - B2R (round_int T) * B2R w)
       <= u * Rabs (B2R (round_int T) * B2R w)).
    { pose proof (rel_abs_bounds _ _ _ He) as [Blo Bhi].
      pose proof u_small as Hu.
      assert (H1 : 1 <= Rabs (IZR T)).
      { rewrite <- abs_IZR. apply IZR_le. lia. }
      assert (H2 : Rabs (IZR T) < bpow 1023).
      { rewrite <- abs_IZR, (bpow_IZR 1023) by lia. now apply IZR_lt. }
      apply fmul_R; [now apply Hn|exact Nw| |];
        rewrite Rabs_mult, (Rabs_pos_eq (B2R w)) by lra.
      - pose proof bpow_m1021_small. pose proof (Rabs_pos (B2R (round_int T))).
        nra.
      - pose proof (bpow_pos 1023). pose proof (Rabs_pos (B2R (round_int T))).
        nra. }
    split; [apply normal_fin, HN|intros _; exact HN].
Qed.




End BudgetFacts.

(* ===================================================================== *)
(** * Accumulated rounding error *)
(* ===================================================================== *)

Section Accuracy.
Import Float64 Budget FloatSpec.
#[local] Open Scope R_scope.

Lemma Rabs_le_both (a b : R) : Rabs a <= b -> - b <= a <= b.
Proof.
  intros H. pose proof (Rle_abs a). pose proof (Rle_abs (- a)) as H1.
  rewrite Rabs_Ropp in H1. lra.
Qed.

Lemma within_of_rel (r X : R) :
  0 <= X -> Rabs (r - X) <= u * Rabs X -> within 1 r X.
Proof.
  intros HX H. rewrite (Rabs_pos_eq X) in H by assumption.
  unfold within. apply Rabs_le_both in H. lra.
Qed.

Lemma within_nonneg (c x X : R) :
  0 <= X -> 0 <= c <= 100 -> within c x X ->
  0 <= x /\ X * (99 / 100) <= x <= X * (101 / 100).
Proof.
  intros HX Hc [Hlo Hhi]. pose proof u_small as Hu.
  assert (0 <= c * u <= / 10000) by nra.
  assert (X * (c * u) <= X * / 10000) by (apply Rmult_le_compat_l; lra).
  assert (0 <= X * (c * u)) by (apply Rmult_le_pos; lra).
  nra.
Qed.

(** One more rounding adds one unit roundoff (and a little). *)
Lemma within_rnd (c x X r : R) :
  0 <= X -> 0 <= c <= 100 -> within c x X ->
  Rabs (r - x) <= u * Rabs x ->
  within (c + 1 + / 1000) r X.
Proof.
  intros HX Hc Hw H. pose proof u_small as Hu.
  destruct (within_nonneg c x X HX Hc Hw) as (Hx & _).
  destruct Hw as [Hlo Hhi].
  rewrite (Rabs_pos_eq x) in H by assumption. apply Rabs_le_both in H.
  assert (Hcu : 0 <= c * u <= / 10000) by nra.
  assert (Hq : 0 <= X * u * (c * u) <= X * u * / 1000).
  { split; [apply Rmult_le_pos; [apply Rmult_le_pos|]; lra|].
    apply Rmult_le_compat_l; [apply Rmult_le_pos; lra|lra]. }
  assert (H1 : x * u <= X * (1 + c * u) * u)
    by (apply Rmult_le_compat_r; lra).
  assert (H2 : X * (1 - c * u) * u <= x * u)
    by (apply Rmult_le_compat_r; lra).
  unfold within. split; nra.
Qed.

Lemma within_scale (c x X k : R) :
  0 <= k -> within c x X -> within c (x * k) (X * k).
Proof.
  intros Hk [Hlo Hhi]. unfold within.
  split.
  - replace (X * k * (1 - c * u)) with (X * (1 - c * u) * k) by ring.
    now apply Rmult_le_compat_r.
  - replace (X * k * (1 + c * u)) with (X * (1 + c * u) * k) by ring.
    now apply Rmult_le_compat_r.
Qed.


Lemma within_weaken (c c' x X : R) :
  0 <= X -> c <= c' -> within c x X -> within c' x X.
Proof.
  intros HX Hc [Hlo Hhi]. pose proof u_small as Hu. unfold within.
  assert (X * (c * u) <= X * (c' * u)).
  { apply Rmult_le_compat_l; [assumption|].
    apply Rmult_le_compat_r; lra. }
  split; lra.
Qed.

(** The product of two approximations. *)
Lemma within_mul (c x X y Y : R) :
  0 <= X -> 0 <= Y -> 0 <= c <= 100 ->
  within c x X -> within 1 y Y ->
  within (c + 1 + / 1000) (x * y) (X * Y).
Proof.
  intros HX HY Hc Hx Hy. pose proof u_small as Hu.
  destruct (within_nonneg c x X HX Hc Hx) as (Hx0 & _).
  destruct (within_nonneg 1 y Y HY ltac:(lra) Hy) as (Hy0 & _).
  destruct Hx as [Hxl Hxh], Hy as [Hyl Hyh].
  assert (Hcu : 0 <= c * u <= / 10000) by nra.
  assert (HXY : 0 <= X * Y) by (apply Rmult_le_pos; lra).
  assert (Hhi : x * y <= X * (1 + c * u) * (Y * (1 + 1 * u))).
  { apply Rmult_le_compat; lra. }
  assert (Hlo : X * (1 - c * u) * (Y * (1 - 1 * u)) <= x * y).
  { apply Rmult_le_compat; try lra.
    - apply Rmult_le_pos; lra.
    - apply Rmult_le_pos; lra. }
  assert (Hq : 0 <= X * Y * u * (c * u) <= X * Y * u * / 1000).
  { split; [apply Rmult_le_pos; [apply Rmult_le_pos|]; lra|].
    apply Rmult_le_compat_l; [apply Rmult_le_pos; lra|lra]. }
  unfold within. split; nra.
Qed.

Lemma tolerance_value : tolerance = 32 * u.
Proof.
  unfold tolerance, u. change (-48)%Z with (5 + -53)%Z. rewrite bpow_add.
  f_equal. unfold bpow. simpl. lra.
Qed.

Lemma within_close (c x X : R) :
  0 <= X -> c <= 32 -> within c x X -> close_to tolerance x X.
Proof.
  intros HX Hc Hw. apply (within_weaken c 32) in Hw; try assumption.
  destruct Hw as [Hlo Hhi]. unfold close_to.
  rewrite tolerance_value, (Rabs_pos_eq X) by assumption.
  apply Rabs_le. lra.
Qed.

(** ** The category amounts *)

(** One amount of the estimator, for a positive daily spend and a positive
    number of days: a normal float, four roundings away from the exact
    product. *)
Lemma amount_R (T d : Z) (w : float) :
  (1 <= T)%Z -> (1 <= d)%Z -> (T * d <= 2 ^ 1000)%Z -> is_weight w ->
  let a := fmul (fmul (round_int T) w) (round_int d) in
  normal a /\ within (4 + 3 / 1000) (B2R a) (IZR T * B2R w * IZR d).
Proof.
  intros HT Hd HTd Hw a. subst a. pose proof u_small as Hu.
  assert (Hpow : (2 ^ 1000 < 2 ^ 1023)%Z) by (apply Z.pow_lt_mono_r; lia).
  assert (HT' : (Z.abs T < 2 ^ 1023)%Z) by nia.
  assert (Hd' : (Z.abs d < 2 ^ 1023)%Z) by nia.
  destruct (weight_normal w Hw) as (Nw & Wlo & Whi).
  set (W := B2R w) in *. set (t := IZR T). set (dd := IZR d).
  assert (Ht1 : 1 <= t) by (apply IZR_le; lia).
  assert (Hd1 : 1 <= dd) by (apply IZR_le; lia).
  assert (Htd : t * dd <= bpow 1000).
  { unfold t, dd. rewrite <- mult_IZR, (bpow_IZR 1000) by lia.
    now apply IZR_le. }
  pose proof (bpow_pos 1000) as HB. set (B := bpow 1000) in *.
  (* the two conversions *)
  destruct (round_int_R T HT') as (_ & HeT & HnT & _).
  destruct (round_int_R d Hd') as (_ & Hed & Hnd & _).
  assert (WT : within 1 (B2R (round_int T)) t)
    by (apply within_of_rel; [lra|exact HeT]).
  assert (Wd : within 1 (B2R (round_int d)) dd)
    by (apply within_of_rel; [lra|exact Hed]).
  (* the first product *)
  destruct (fmul_round_int_weight T w HT' Hw) as (_ & Hp).
  destruct Hp as (Np & Hep); [lia|]. fold W in Hep.
  set (p := fmul (round_int T) w) in *.
  assert (HtW : 0 <= t * W) by (apply Rmult_le_pos; lra).
  assert (Wp : within (1 + 1 + / 1000) (B2R p) (t * W)).
  { apply (within_rnd 1 (B2R (round_int T) * W)); [lra|lra| |exact Hep].
    apply within_scale; [lra|exact WT]. }
  (* the second product *)
  assert (Wx : within (1 + 1 + / 1000 + 1 + / 1000)
                 (B2R p * B2R (round_int d)) (t * W * dd)).
  { apply within_mul; try lra; assumption. }
  assert (HtWd : 0 <= t * W * dd) by (apply Rmult_le_pos; lra).
  destruct (within_nonneg (1 + 1 + / 1000 + 1 + / 1000) _ _ HtWd
              ltac:(lra) Wx) as (Hx0 & Hxl & Hxh).
  assert (Hlow : / 10 <= t * W * dd).
  { assert (/ 10 <= t * W) by nra. nra. }
  assert (Hupp : t * W * dd <= B * / 2).
  { replace (t * W * dd) with (t * dd * W) by ring.
    apply Rmult_le_compat; try lra. apply Rmult_le_pos; lra. }
  destruct (fmul_R p (round_int d) Np (Hnd ltac:(lia))) as (Na & Hea).
  - rewrite Rabs_pos_eq by assumption. pose proof bpow_m1021_small. lra.
  - rewrite Rabs_pos_eq by assumption. rewrite bpow_1023_value. fold B. lra.
  - split; [exact Na|].
    replace (4 + 3 / 1000) with (1 + 1 + / 1000 + 1 + / 1000 + 1 + / 1000)
      by lra.
    apply (within_rnd _ (B2R p * B2R (round_int d))); try lra; assumption.
Qed.

(** ** Sums *)








Lemma estimate_budget_ints (alg : sum_algorithm) (days b n : Z) :
  (Z.abs (b * n) < 2 ^ 1023)%Z -> (Z.abs days < 2 ^ 1023)%Z ->
  let amt w := fmul (fmul (round_int (b * n)) w) (round_int days) in
  estimate_budget alg (PyInt days) (PyInt b) (PyInt n) =
    inr ([ ("Accommodation"%string, amt w_accommodation);
           ("Food"%string, amt w_food);
           ("Transport"%string, amt w_transport);
           ("Activities"%string, amt w_activities) ],
         py_sum alg [amt w_accommodation; amt w_food; amt w_transport;
                     amt w_activities]).
Proof.
  intros HT Hd amt.
  unfold estimate_budget, py_mul, amount, to_float, bind, ret.
  rewrite !(int_to_float_ok _ HT), !(int_to_float_ok _ Hd). reflexivity.
Qed.




End Accuracy.

(* ===================================================================== *)
(** * The budget estimator *)
(* ===================================================================== *)

Section BudgetExamples.
Import PyStr Spec Session Float64 Budget Renderer Prompt App.

(** C2. For the cities "Rome, Italy" and "Paris, France" (one per line),
    3 days per city, 2 people and a daily budget of 300, the run computes
    total_days = 3 * 2 = 6 and calls the estimator with it; the estimate is
    Accommodation 1440.0, Food 900.0, Transport 540.0, Activities 720.0
    and total 3600.0, under either summation algorithm. *)
Theorem C2_rome_paris_scenario (alg : sum_algorithm) :
  let cities := py "Rome, Italy" ++ nl ++ py "Paris, France" in
  let st : session_state :=
    <["daily_budget" := VInt 300]> (<["num_people" := VInt 2]>
      (<["days" := VInt 3]> (<["cities" := VStr cities]> ∅))) in
  let total_days := 3 * Z.of_nat (length (city_lines cities)) in
  let estimate :=
    ([ ("Accommodation"%string, round_int 1440);
       ("Food"%string, round_int 900);
       ("Transport"%string, round_int 540);
       ("Activities"%string, round_int 720) ],
     PyFloat (round_int 3600)) in
  let tr :=
    snd (run (fun _ _ => Responds [Some (py "## Rome")]) (fun _ => false) []
           alg true st) in
  city_list cities = [py "Rome, Italy"; py "Paris, France"] /\
  total_days = 6 /\
  estimate_budget alg (PyInt total_days) (PyInt 300) (PyInt 2) = inr estimate /\
  In (CallEstimateBudget 6 300 2) tr /\
  In (WriteAmount "Accommodation" (round_int 1440)) tr /\
  In (WriteAmount "Food" (round_int 900)) tr /\
  In (WriteAmount "Transport" (round_int 540)) tr /\
  In (WriteAmount "Activities" (round_int 720)) tr /\
  In (WriteTotal (PyFloat (round_int 3600))) tr.
Proof.
  destruct alg; vm_compute;
    (split; [reflexivity|]); (split; [reflexivity|]); (split; [reflexivity|]);
    (split; [do 8 right; left; reflexivity|]);
    (split; [do 9 right; left; reflexivity|]);
    (split; [do 10 right; left; reflexivity|]);
    (split; [do 11 right; left; reflexivity|]);
    (split; [do 12 right; left; reflexivity|]);
    do 13 right; left; reflexivity.
Qed.

End BudgetExamples.

(* ===================================================================== *)
(** * Further properties: parsing the cities, rendering, the prompt *)
(* ===================================================================== *)

Section MoreStringFacts.
Import PyStr Spec Renderer Prompt App.
#[local] Open Scope N_scope.

Lemma one_line_rev (l : pystr) : one_line l -> one_line (rev l).
Proof.
  unfold one_line. rewrite !forallb_forall. intros H c Hc.
  apply H. now apply in_rev.
Qed.

(** Every line [splitlines] returns is free of line boundaries. *)
Lemma splitlines_from_lines (s cur : pystr) :
  one_line cur -> Forall one_line (splitlines_from cur s).
Proof.
  revert cur. induction s as [|c s IH]; intros cur Hcur.
  - simpl. destruct cur; constructor; [now apply one_line_rev|constructor].
  - simpl. destruct (islinebreak c) eqn:Ec.
    + constructor; [now apply one_line_rev|].
      destruct (c =? CR); [|now apply IH].
      destruct s as [|c' s']; [now apply IH|].
      destruct (N.eqb_spec c' NL) as [->|]; [|now apply IH].
      assert (H := IH [] eq_refl). simpl in H.
      inversion H; subst. assumption.
    + apply IH. unfold one_line in *. simpl. now rewrite Ec, Hcur.
Qed.

Lemma lstrip_suffix (s : pystr) : exists pre, s = pre ++ lstrip s.
Proof.
  induction s as [|c s [pre IH]]; [now exists []|].
  simpl. destruct (isspace c).
  - exists (c :: pre). simpl. now f_equal.
  - now exists [].
Qed.

Lemma lstrip_head (s : pystr) (c : char) :
  hd_error (lstrip s) = Some c -> isspace c = false.
Proof.
  induction s as [|x s IH]; simpl; [discriminate|].
  destruct (isspace x) eqn:Ex; [exact IH|].
  simpl. intros [= <-]. exact Ex.
Qed.

(** [s.strip()] is a piece of [s]: [s = pre ++ s.strip() ++ post]. *)
Lemma strip_infix (s : pystr) : exists pre post, s = pre ++ strip s ++ post.
Proof.
  destruct (lstrip_suffix s) as [pre Hpre].
  destruct (lstrip_suffix (rev (lstrip s))) as [post Hpost].
  exists pre, (rev post). unfold strip, rstrip.
  rewrite <- rev_app_distr, <- Hpost, rev_involutive. exact Hpre.
Qed.

Lemma strip_trimmed (s : pystr) : nonempty (strip s) = true -> trimmed (strip s).
Proof.
  intros Hne. split; [|split].
  - intros E. rewrite E in Hne. discriminate.
  - intros c Hc.
    destruct (lstrip_suffix (rev (lstrip s))) as [post Hpost].
    assert (E : lstrip s = strip s ++ rev post).
    { unfold strip, rstrip. rewrite <- rev_app_distr, <- Hpost.
      now rewrite rev_involutive. }
    apply (lstrip_head s). rewrite E.
    destruct (strip s); [discriminate|exact Hc].
  - intros c Hc. unfold strip, rstrip in Hc. rewrite rev_involutive in Hc.
    exact (lstrip_head _ _ Hc).
Qed.

Lemma one_line_infix (pre s post : pystr) :
  one_line (pre ++ s ++ post) -> one_line s.
Proof.
  unfold one_line. rewrite !forallb_app, !andb_true_iff. tauto.
Qed.

(** X3 -- the cities the submit handler parses
    ([[c.strip() for c in cities.splitlines() if c.strip()]]): every entry
    is non-empty, has no whitespace at either end and holds no line
    boundary; and there are exactly as many of them as the lines the budget
    section counts ([[c for c in cities.splitlines() if c.strip()]]). *)
Theorem X3_city_list_entries (text : pystr) :
  Forall (fun c => trimmed c /\ one_line c) (city_list text) /\
  length (city_list text) = length (city_lines text).
Proof.
  split.
  - unfold city_list. apply List.Forall_forall. intros c Hc.
    apply in_map_iff in Hc. destruct Hc as [l [<- Hl]].
    apply filter_In in Hl. destruct Hl as [Hl Hne].
    split; [now apply strip_trimmed|].
    destruct (strip_infix l) as [pre [post E]].
    apply (one_line_infix pre _ post). rewrite <- E.
    assert (F := splitlines_from_lines text [] eq_refl).
    rewrite List.Forall_forall in F. now apply F.
  - unfold city_list, city_lines. now rewrite length_map.
Qed.

Lemma city_list_one_line (text : pystr) : Forall one_line (city_list text).
Proof.
  unfold city_list. apply List.Forall_forall. intros c Hc.
  apply in_map_iff in Hc. destruct Hc as [l [<- Hl]].
  apply filter_In in Hl. destruct Hl as [Hl _].
  destruct (strip_infix l) as [pre [post E]].
  apply (one_line_infix pre _ post). rewrite <- E.
  assert (F := splitlines_from_lines text [] eq_refl).
  rewrite List.Forall_forall in F. now apply F.
Qed.

(** ** The renderer *)






End MoreStringFacts.

Section MorePromptFacts.
Import PyStr Spec Renderer Prompt App.
#[local] Open Scope N_scope.


Lemma one_line_split_on (l : pystr) : one_line l -> split_on NL l = [l].
Proof.
  induction l as [|c l IH]; [reflexivity|].
  unfold one_line. simpl. intros H. apply andb_prop in H as [Hc Hl].
  rewrite (IH Hl). destruct (N.eqb_spec c NL) as [->|]; [discriminate|reflexivity].
Qed.

Lemma one_line_join (sep : pystr) (parts : list pystr) :
  one_line sep -> Forall one_line parts -> one_line (join sep parts).
Proof.
  intros Hs H. induction H as [|p ps Hp Hps IH]; [reflexivity|].
  destruct ps as [|q ps]; [exact Hp|].
  change (join sep (p :: q :: ps)) with (p ++ sep ++ join sep (q :: ps)).
  apply one_line_app; [exact Hp|]. apply one_line_app; [exact Hs|exact IH].
Qed.

(** X4 -- the request text opens with the cities, in the order given and
    separated by a comma and a blank, whatever the other fields hold:
    it starts with an empty line and then the line [Cities: c1, c2, ...],
    for cities that hold no line boundary (as those the submit handler
    parses). *)
Theorem X4_prompt_starts_with_cities
    (cities : list pystr) (days : Z) (interests : list pystr)
    (guardrails : pystr) (num_people : Z) (ages : pystr) :
  Forall one_line cities ->
  startswith (build_prompt cities days interests guardrails num_people ages)
    (nl ++ py "Cities: " ++ join (py ", ") cities ++ nl) = true.
Proof.
  intros Hc. rewrite build_prompt_blank_text.
  set (l := py "Cities: " ++ join (py ", ") cities).
  set (b := py "Days per city: " ++ str_of_int days ++ py "

Travel Group:
- Number of people: " ++ str_of_int num_people ++ py "
- Ages: " ++ str_or ages (py "Not specified") ++ py "

Interests: " ++ str_or (join (py ", ") interests) (py "General sightseeing") ++ py "
Guardrails: " ++ str_or guardrails (py "None") ++ py "

Guidelines:
- Include kid-friendly or senior-friendly activities if applicable
- Avoid physically demanding activities when younger kids or seniors are present
- Balance rest and exploration

Generate a practical itinerary.
").
  replace (prompt_template cities days interests guardrails num_people ages)
    with ([] ++ NL :: l ++ NL :: b).
  - rewrite blank_text_line.
    + change (blank_text [] ++ NL :: l ++ NL :: blank_text b)
        with ((nl ++ l) ++ nl ++ blank_text b).
      replace (nl ++ py "Cities: " ++ join (py ", ") cities ++ nl)
        with ((nl ++ l) ++ nl) by (unfold l; now rewrite <- !app_assoc).
      rewrite (app_assoc (nl ++ l)). apply startswith_app.
    + apply one_line_split_on. unfold l. apply one_line_app; [reflexivity|].
      apply one_line_join; [reflexivity|exact Hc].
    + reflexivity.
  - unfold prompt_template, l, b. rewrite <- !app_assoc. reflexivity.
Qed.

Lemma X4_witness :
  Forall one_line (city_list (py "Rome
 Paris ")) /\
  startswith
    (build_prompt (city_list (py "Rome
 Paris ")) 3 [] [] 2 [])
    (py "
Cities: Rome, Paris
") = true.
Proof.
  split; [apply city_list_one_line|].
  exact (X4_prompt_starts_with_cities (city_list (py "Rome
 Paris ")) 3 [] [] 2 [] (city_list_one_line _)).
Defined.

(** X5 -- every request text ends with the same block: an empty line, the
    heading [Guidelines:], the three guidelines, an empty line and the
    closing instruction; no field can change or remove it. *)
Theorem X5_prompt_ends_with_guidelines
    (cities : list pystr) (days : Z) (interests : list pystr)
    (guardrails : pystr) (num_people : Z) (ages : pystr) :
  exists pre : pystr,
    build_prompt cities days interests guardrails num_people ages =
    pre ++ nl ++ guidelines.
Proof.
  rewrite build_prompt_blank_text.
  set (a := py "
Cities: " ++ join (py ", ") cities ++ py "
Days per city: " ++ str_of_int days ++ py "

Travel Group:
- Number of people: " ++ str_of_int num_people ++ py "
- Ages: " ++ str_or ages (py "Not specified") ++ py "

Interests: " ++ str_or (join (py ", ") interests) (py "General sightseeing") ++ py "
Guardrails: " ++ str_or guardrails (py "None") ++ py "
").
  exists (blank_text a).
  replace (prompt_template cities days interests guardrails num_people ages)
    with (a ++ NL :: guidelines).
  - rewrite blank_text_app_sep. reflexivity.
  - unfold prompt_template, a. rewrite <- !app_assoc. reflexivity.
Qed.

End MorePromptFacts.

(* ===================================================================== *)
(** * Further properties: the session state and the runs *)
(* ===================================================================== *)

Section MoreSessionFacts.
Import PyStr Spec Session.

Lemma setdefault_union (k : string) (v : pyval) (st : session_state) :
  setdefault k v st = st ∪ {[ k := v ]}.
Proof.
  apply map_eq. intros k'. rewrite setdefault_lookup, lookup_union.
  destruct (decide (k = k')) as [<-|Hne].
  - rewrite lookup_singleton_eq. destruct (st !! k); reflexivity.
  - rewrite lookup_singleton_ne by exact Hne. destruct (st !! k'); reflexivity.
Qed.

Lemma init_state_union (st : session_state) :
  init_state st = st ∪ documented_defaults.
Proof.
  unfold init_state. rewrite !setdefault_union.
  rewrite <- !(assoc_L (∪)). f_equal.
Qed.

(** X6 -- [init_state] only fills gaps: a key that is stored keeps its
    value, whatever its type; a key that is missing gets the default of the
    form, and keys outside the form are left alone.  Running it again
    changes nothing. *)
Theorem X6_init_state_fills_gaps (st : session_state) :
  (forall k : string,
     init_state st !! k =
     match st !! k with
     | Some v => Some v
     | None => documented_defaults !! k
     end) /\
  init_state (init_state st) = init_state st.
Proof.
  split.
  - intros k. rewrite init_state_union, lookup_union.
    destruct (st !! k); [|now rewrite (left_id_L None _)].
    destruct (documented_defaults !! k); reflexivity.
  - rewrite !init_state_union, <- (assoc_L (∪)).
    now rewrite (idemp_L (∪) documented_defaults).
Qed.

End MoreSessionFacts.

Section MoreAppFacts.
Import PyStr Spec Session Float64 Budget Renderer Prompt App.

Variable service : pystr -> pystr -> reply.
Variable build_fails : list flowable -> bool.
Variable stamp : pystr.
Variable alg : sum_algorithm.






(** X7 -- a submission with at least one city, answered by the service:
    the handler builds the prompt from the stripped city lines and the
    stored fields, calls the service once (model gpt-4.1, the system
    prompt, at most 1800 tokens) and stores the content of the first
    choice as the itinerary; further choices are ignored and no other key
    changes. *)
Theorem X7_submission_stores_first_choice
    (st : session_state) (text : pystr) (c : pystr) (cs : list pystr)
    (days : Z) (interests : list pystr) (guardrails : pystr)
    (num_people : Z) (ages : pystr)
    (content : pystr) (others : list (option pystr)) :
  let prompt :=
    build_prompt (c :: cs) days interests guardrails num_people ages in
  st !! "cities" = Some (VStr text) ->
  city_list text = c :: cs ->
  st !! "days" = Some (VInt days) ->
  st !! "interests" = Some (VList interests) ->
  st !! "guardrails" = Some (VStr guardrails) ->
  st !! "num_people" = Some (VInt num_people) ->
  st !! "ages" = Some (VStr ages) ->
  service SYSTEM_PROMPT prompt = Responds (Some content :: others) ->
  main_action service true st [] =
    (inr tt, <["plan_md" := VStr content]> st,
     [ Spinner (py "Generating your personalized travel itinerary...");
       CallBuildPrompt (c :: cs);
       CallService "gpt-4.1" SYSTEM_PROMPT prompt 1800 ]) /\
  forall k : string, k <> "plan_md"%string ->
    <["plan_md" := VStr content]> st !! k = st !! k.
Proof.
  intros prompt Hcities Hlist Hdays Hint Hguard Hnum Hages Hreply.
  split; [|intros k Hk; now apply lookup_insert_ne].
  unfold main_action, generate_itinerary, get_str, get_int, get_list, get, set.
  cbv [mbind mret mraise emit].
  rewrite Hcities, Hlist, Hdays, Hint, Hguard, Hnum, Hages.
  fold prompt. rewrite Hreply. reflexivity.
Qed.

(** X8 -- a reply whose first choice has no content ([None]) or an empty
    one is stored all the same, in place of any earlier itinerary, and the
    run then shows nothing: no success message, no itinerary, no budget,
    no download. *)
Theorem X8_empty_reply_shows_nothing
    (st : session_state) (text : pystr) (c : pystr) (cs : list pystr)
    (days : Z) (interests : list pystr) (guardrails : pystr)
    (num_people : Z) (ages : pystr)
    (first : option pystr) (others : list (option pystr)) :
  let prompt :=
    build_prompt (c :: cs) days interests guardrails num_people ages in
  init_state st !! "cities" = Some (VStr text) ->
  city_list text = c :: cs ->
  init_state st !! "days" = Some (VInt days) ->
  init_state st !! "interests" = Some (VList interests) ->
  init_state st !! "guardrails" = Some (VStr guardrails) ->
  init_state st !! "num_people" = Some (VInt num_people) ->
  init_state st !! "ages" = Some (VStr ages) ->
  service SYSTEM_PROMPT prompt = Responds (first :: others) ->
  first = None \/ first = Some [] ->
  run service build_fails stamp alg true st =
    (inr tt,
     <["plan_md" := match first with Some s => VStr s | None => VNone end]>
       (init_state st),
     [ Spinner (py "Generating your personalized travel itinerary...");
       CallBuildPrompt (c :: cs);
       CallService "gpt-4.1" SYSTEM_PROMPT prompt 1800;
       Divider; ResetButton ]).
Proof.
  intros prompt Hcities Hlist Hdays Hint Hguard Hnum Hages Hreply Hfirst.
  rewrite script_unfold.
  unfold main_action, generate_itinerary, get_str, get_int, get_list, get, set.
  cbv [mbind mret mraise emit].
  rewrite Hcities, Hlist, Hdays, Hint, Hguard, Hnum, Hages.
  fold prompt. rewrite Hreply.
  unfold output, get. cbv [mbind mret mraise emit].
  destruct Hfirst as [->| ->]; rewrite lookup_insert_eq; reflexivity.
Qed.




(** X11 -- after [reset_all] the next run starts from the defaults of the
    form, whatever was stored: it shows no itinerary, no budget and no
    download, calls neither the service nor the estimator, and a
    submission is answered by the warning about the missing city. *)
Theorem X11_run_after_reset (submitted : bool) (st : session_state) :
  run service build_fails stamp alg submitted (reset_all st) =
    (inr tt, documented_defaults,
     (if submitted
      then [Warning (py "Please enter at least one city.")] else [])
     ++ [Divider; ResetButton]).
Proof.
  assert (E : reset_all st = documented_defaults)
    by (unfold reset_all, clear; vm_compute; reflexivity).
  rewrite E. destruct submitted; vm_compute; reflexivity.
Qed.

End MoreAppFacts.

Section MoreAppExamples.
Import PyStr Spec Session Float64 Budget Renderer Prompt App.

(** A service that answers every request with two choices, a document
    build that fails. *)
Let two_choices : pystr -> pystr -> reply :=
  fun _ _ => Responds [Some (py "## Rome"); Some (py "## Oslo")].
Let no_content : pystr -> pystr -> reply := fun _ _ => Responds [None].
Let build_breaks : list flowable -> bool := fun _ => true.
Let at_noon : pystr := py "2025-06-01 12:00".

(** The theorem at a fresh session with one city. *)
Lemma X7_witness :
  let st : session_state := init_state (<["cities" := VStr (py " Rome ")]> ∅) in
  let prompt := build_prompt [py "Rome"] 3 [] [] 1 [] in
  main_action two_choices true st [] =
    (inr tt, <["plan_md" := VStr (py "## Rome")]> st,
     [ Spinner (py "Generating your personalized travel itinerary...");
       CallBuildPrompt [py "Rome"];
       CallService "gpt-4.1" SYSTEM_PROMPT prompt 1800 ]).
Proof.
  intros st prompt.
  apply (X7_submission_stores_first_choice two_choices st (py " Rome ")
           (py "Rome") [] 3 [] [] 1 [] (py "## Rome") [Some (py "## Oslo")]
           eq_refl eq_refl eq_refl eq_refl eq_refl eq_refl eq_refl eq_refl).
Defined.

(** The theorem at a reply without content, over an earlier itinerary. *)
Lemma X8_witness :
  let st : session_state :=
    <["plan_md" := VStr (py "## Oslo")]> (<["cities" := VStr (py "Rome")]> ∅) in
  let prompt := build_prompt [py "Rome"] 3 [] [] 1 [] in
  run no_content build_breaks at_noon Compensated true st =
    (inr tt, <["plan_md" := VNone]> (init_state st),
     [ Spinner (py "Generating your personalized travel itinerary...");
       CallBuildPrompt [py "Rome"];
       CallService "gpt-4.1" SYSTEM_PROMPT prompt 1800;
       Divider; ResetButton ]).
Proof.
  intros st prompt.
  apply (X8_empty_reply_shows_nothing no_content build_breaks at_noon
           Compensated st (py "Rome") (py "Rome") [] 3 [] [] 1 [] None []
           eq_refl eq_refl eq_refl eq_refl eq_refl eq_refl eq_refl eq_refl
           (or_introl eq_refl)).
Defined.


End MoreAppExamples.

(* ===================================================================== *)
(** * Further properties: the shares of the budget *)
(* ===================================================================== *)

Section MoreBudgetFacts.
Import Float64 Budget FloatSpec.
#[local] Open Scope R_scope.

(** The four float literals on the real line. *)
Lemma weights_R :
  B2R w_accommodation = 7205759403792794 / 18014398509481984 /\
  B2R w_food = 1 / 4 /\
  B2R w_transport = 5404319552844595 / 36028797018963968 /\
  B2R w_activities = 7205759403792794 / 36028797018963968.
Proof.
  destruct weights_values as (E1 & E2 & E3 & E4).
  rewrite E1, E2, E3, E4. rewrite !B2R_finite. unfold sgn.
  rewrite !bpow_neg_value.
  change (2 ^ 54)%Z with 18014398509481984%Z.
  change (2 ^ 55)%Z with 36028797018963968%Z.
  repeat split; lra.
Qed.

(** X12 -- the shares of the budget.  For at least one day, a daily spend
    (budget times people) of at least 1 and a product of at most 2^1000,
    each amount is its share of the whole spend up to a relative error of
    2^-50: Accommodation 40%, Food 25%, Transport 15%, Activities 20%; so
    the amounts are positive and Transport < Activities < Food <
    Accommodation. *)
Theorem X12_budget_shares (alg : sum_algorithm) (days b n : Z) :
  (1 <= days)%Z -> (1 <= b * n)%Z -> (b * n * days <= 2 ^ 1000)%Z ->
  let spend := IZR (b * n * days) in
  exists a1 a2 a3 a4 total,
    estimate_budget alg (PyInt days) (PyInt b) (PyInt n) =
      inr ([ ("Accommodation"%string, a1); ("Food"%string, a2);
             ("Transport"%string, a3); ("Activities"%string, a4) ],
           total) /\
    close_to (bpow (-50)) (B2R a1) (40 / 100 * spend) /\
    close_to (bpow (-50)) (B2R a2) (25 / 100 * spend) /\
    close_to (bpow (-50)) (B2R a3) (15 / 100 * spend) /\
    close_to (bpow (-50)) (B2R a4) (20 / 100 * spend) /\
    0 < B2R a3 < B2R a4 /\ B2R a4 < B2R a2 < B2R a1.
Proof.
  intros Hd HT Hprod spend.
  assert (Hpow : (2 ^ 1000 < 2 ^ 1023)%Z) by (apply Z.pow_lt_mono_r; lia).
  assert (HT' : (Z.abs (b * n) < 2 ^ 1023)%Z) by nia.
  assert (Hd' : (Z.abs days < 2 ^ 1023)%Z) by nia.
  pose proof (estimate_budget_ints alg days b n HT' Hd') as E.
  cbv beta zeta in E.
  destruct (amount_R (b * n) days w_accommodation HT Hd Hprod
              (or_introl eq_refl)) as [_ [L1 U1]].
  destruct (amount_R (b * n) days w_food HT Hd Hprod
              (or_intror (or_introl eq_refl))) as [_ [L2 U2]].
  destruct (amount_R (b * n) days w_transport HT Hd Hprod
              (or_intror (or_intror (or_introl eq_refl)))) as [_ [L3 U3]].
  destruct (amount_R (b * n) days w_activities HT Hd Hprod
              (or_intror (or_intror (or_intror eq_refl)))) as [_ [L4 U4]].
  destruct weights_R as (W1 & W2 & W3 & W4).
  rewrite W1 in L1, U1. rewrite W2 in L2, U2.
  rewrite W3 in L3, U3. rewrite W4 in L4, U4.
  assert (Hs : spend = IZR (b * n) * IZR days)
    by (unfold spend; now rewrite mult_IZR).
  assert (Hpos : 1 <= spend).
  { unfold spend. apply IZR_le. nia. }
  set (a1 := fmul (fmul (round_int (b * n)) w_accommodation) (round_int days)) in *.
  set (a2 := fmul (fmul (round_int (b * n)) w_food) (round_int days)) in *.
  set (a3 := fmul (fmul (round_int (b * n)) w_transport) (round_int days)) in *.
  set (a4 := fmul (fmul (round_int (b * n)) w_activities) (round_int days)) in *.
  exists a1, a2, a3, a4, (py_sum alg [a1; a2; a3; a4]).
  split; [exact E|].
  rewrite u_value in *.
  assert (Hb : bpow (-50) = / 1125899906842624).
  { rewrite bpow_neg_value. now change (2 ^ 50)%Z with 1125899906842624%Z. }
  unfold close_to. rewrite Hb.
  rewrite (Rabs_pos_eq (40 / 100 * spend)), (Rabs_pos_eq (25 / 100 * spend)),
    (Rabs_pos_eq (15 / 100 * spend)), (Rabs_pos_eq (20 / 100 * spend)) by lra.
  replace (IZR (b * n) * (7205759403792794 / 18014398509481984) * IZR days)
    with (spend * (7205759403792794 / 18014398509481984)) in L1, U1
    by (rewrite Hs; ring).
  replace (IZR (b * n) * (1 / 4) * IZR days)
    with (spend * (1 / 4)) in L2, U2 by (rewrite Hs; ring).
  replace (IZR (b * n) * (5404319552844595 / 36028797018963968) * IZR days)
    with (spend * (5404319552844595 / 36028797018963968)) in L3, U3
    by (rewrite Hs; ring).
  replace (IZR (b * n) * (7205759403792794 / 36028797018963968) * IZR days)
    with (spend * (7205759403792794 / 36028797018963968)) in L4, U4
    by (rewrite Hs; ring).
  repeat split; try (apply Rabs_le; split); lra.
Qed.

(** The theorem at six days, two people and 150 a day each. *)
Lemma X12_witness :
  exists a1 a2 a3 a4 total,
    estimate_budget Compensated (PyInt 6) (PyInt 150) (PyInt 2) =
      inr ([ ("Accommodation"%string, a1); ("Food"%string, a2);
             ("Transport"%string, a3); ("Activities"%string, a4) ],
           total) /\
    0 < B2R a3 < B2R a4 /\ B2R a4 < B2R a2 < B2R a1.
Proof.
  assert (H1 : (1 <= 6)%Z) by lia.
  assert (H2 : (1 <= 150 * 2)%Z) by lia.
  assert (H3 : (150 * 2 * 6 <= 2 ^ 1000)%Z)
    by (apply Z.leb_le; vm_compute; reflexivity).
  destruct (X12_budget_shares Compensated 6 150 2 H1 H2 H3)
    as (a1 & a2 & a3 & a4 & total & E & _ & _ & _ & _ & Hlo & Hhi).
  exists a1, a2, a3, a4, total. repeat split; tauto.
Defined.

End MoreBudgetFacts.

Section MoreRendererExamples.
Import PyStr Spec Renderer.


End MoreRendererExamples.
